(** * capacitor-live-activities: timer registry and expiration watchdog

    A shallow embedding of the two implementations of the plugin:

    - [IOS]: [ios/Plugin/LiveActivitiesPlugin.swift], the native plugin that
      keeps [activeTimers] and [timerMetadata] and polls for expirations;
    - [Web]: the [LiveActivitiesWeb] class of [src/web.ts], which tracks
      timers in memory and watches each one with a [setInterval] callback.

    Conventions of the embedding.

    - A point in time ([Date] in Swift, [Date.now()] in TypeScript) is an
      integer number of milliseconds since the epoch.  A Swift [TimeInterval]
      is kept in milliseconds as well, so [endTime / 1000] on the way in and
      [* 1000] on the way out disappear, and [Int(seconds)] becomes a
      truncating division by 1000.
    - Every operation that reads the clock receives the reading as [now].
    - A [Task { ... }] body runs to completion as part of the call that
      spawned it; calls, watchdog ticks and activity state changes are the
      atomic steps.
    - [print] and [console.log] are left out; every other outward call is
      recorded in the list of effects an operation returns. *)

From stdpp Require Import gmap strings list fin_maps.
From Stdlib Require Import ZArith Lia.

Open Scope string_scope.
Open Scope list_scope.
Open Scope Z_scope.

(** ** Values crossing the bridge *)

(** The JSON-like values of a call's options, a call's result and an event's
    payload.  [customData] is the only object-valued entry and maps strings to
    strings. *)
Inductive JSValue :=
| JSString (s : string)
| JSNumber (n : Z)
| JSBool (b : bool)
| JSObject (o : gmap string string)
| JSUndefined.

(** [CAPPluginCall]: the options of a call, read through typed getters that
    answer [None] when the key is absent or holds a value of another type. *)
Definition getString (call : gmap string JSValue) (key : string) : option string :=
  match call !! key with
  | Some (JSString s) => Some s
  | _ => None
  end.

Definition getDouble (call : gmap string JSValue) (key : string) : option Z :=
  match call !! key with
  | Some (JSNumber n) => Some n
  | _ => None
  end.

Definition getBool (call : gmap string JSValue) (key : string) : option bool :=
  match call !! key with
  | Some (JSBool b) => Some b
  | _ => None
  end.

Definition getObject (call : gmap string JSValue) (key : string)
    : option (gmap string string) :=
  match call !! key with
  | Some (JSObject o) => Some o
  | _ => None
  end.

(** How a bridged call or a promise completes. *)
Inductive CallResult :=
| Resolve (data : gmap string JSValue)
| Reject (message : string).

Definition isReject (r : CallResult) : bool :=
  match r with
  | Reject _ => true
  | Resolve _ => false
  end.

(** An event handed to [notifyListeners]. *)
Record Notification := mkNotification {
  eventName : string;
  data : gmap string JSValue
}.

(** An event carries a field when its payload has that key. *)
Definition carries (n : Notification) (field : string) : bool :=
  bool_decide (is_Some (data n !! field)).

(** The event is a [timerExpired] event about timer [id]. *)
Definition isTimerExpiredFor (id : string) (n : Notification) : bool :=
  bool_decide (eventName n = "timerExpired")
  && match data n !! "id" with
     | Some (JSString s) => bool_decide (s = id)
     | _ => false
     end.

(** ** The native plugin *)

Module IOS.

(** [VetDrugsTimerAttributes.ContentState] *)
Module ContentState.
Record t := mk {
  title : string;
  subtitle : string;
  detail : string;
  endTime : Z;
  customData : gmap string string
}.
End ContentState.

Record VetDrugsTimerAttributes := mkAttributes {
  id : string;
  timerType : string;
  icon : string;
  accentColorHex : string
}.

Record ActivityContent := mkContent {
  state : ContentState.t;
  staleDate : option Z
}.

(** A live [Activity<VetDrugsTimerAttributes>]: its fixed attributes, its
    current content and the identifier the system gave it. *)
Record Activity := mkActivity {
  attributes : VetDrugsTimerAttributes;
  content : ActivityContent;
  activityToken : string
}.

(** [private struct TimerMetadata] *)
Module TimerMetadata.
Record t := mk {
  endTime : Z;
  hapticOnExpire : bool;
  soundOnExpire : bool;
  hasExpired : bool
}.
End TimerMetadata.

(** The mutable fields of [LiveActivitiesPlugin].  [expirationCheckTimer] is
    [true] while the repeating one-second timer is scheduled. *)
Record Plugin := mkPlugin {
  activeTimers : gmap string Activity;
  timerMetadata : gmap string TimerMetadata.t;
  expirationCheckTimer : bool
}.

Definition initial : Plugin := mkPlugin ∅ ∅ false.

Inductive ActivityUIDismissalPolicy :=
| immediate
| after (date : Z)
| default_policy.

Inductive ActivityState :=
| active
| ended
| dismissed
| stale
| unknown.

(** What [Activity.request] does: hand back a new activity, or throw. *)
Inductive RequestOutcome :=
| granted (token : string)
| refused (localizedDescription : string).

(** Outward calls of the plugin. *)
Inductive Effect :=
| notifyListeners (n : Notification)
| triggerHapticFeedback
| triggerExpirationSound
| activityUpdate (id : string) (c : ActivityContent)
| activityEnd (id : string) (c : option ActivityContent) (p : ActivityUIDismissalPolicy).

Definition notifications (out : list Effect) : list Notification :=
  omap (λ e, match e with notifyListeners n => Some n | _ => None end) out.

Definition setActiveTimers (m : gmap string Activity) (self : Plugin) : Plugin :=
  mkPlugin m (timerMetadata self) (expirationCheckTimer self).

Definition setTimerMetadata (m : gmap string TimerMetadata.t) (self : Plugin) : Plugin :=
  mkPlugin (activeTimers self) m (expirationCheckTimer self).

Definition getActivity (self : Plugin) (id : string) : option Activity :=
  activeTimers self !! id.

Definition iconForType (type : string) : string :=
  if decide (type = "cri") then "syringe.fill"
  else if decide (type = "cpr") then "heart.fill"
  else if decide (type = "fluid") then "drop.fill"
  else if decide (type = "anesthesia") then "lungs.fill"
  else "timer".

Definition colorForType (type : string) : string :=
  if decide (type = "cri") then "#007AFF"
  else if decide (type = "cpr") then "#FF3B30"
  else if decide (type = "fluid") then "#34C759"
  else if decide (type = "anesthesia") then "#AF52DE"
  else "#8E8E93".

Definition startExpirationCheckTimer (self : Plugin) : Plugin :=
  if expirationCheckTimer self then self
  else mkPlugin (activeTimers self) (timerMetadata self) true.

Definition stopExpirationCheckTimer (self : Plugin) : Plugin :=
  mkPlugin (activeTimers self) (timerMetadata self) false.

Definition stopIfEmpty (self : Plugin) : Plugin :=
  if decide (activeTimers self = ∅) then stopExpirationCheckTimer self else self.

(** [startTimer].  [available] is the outcome of the iOS 16.2 availability
    guard and [request] what [Activity.request] does if it is reached. *)
Definition startTimer (available : bool) (request : RequestOutcome)
    (call : gmap string JSValue) (self : Plugin) : Plugin * CallResult * list Effect :=
  if negb available then
    (self,
     Resolve (list_to_map
       [("success", JSBool false);
        ("id", JSString (default "" (getString call "id")));
        ("error", JSString "Live Activities require iOS 16.2 or later")]),
     [])
  else
  match getString call "id" with
  | None => (self, Reject "Timer ID is required", [])
  | Some id =>
  match getString call "title" with
  | None => (self, Reject "Timer title is required", [])
  | Some title =>
  match getDouble call "endTime" with
  | None => (self, Reject "Timer endTime is required", [])
  | Some endTime =>
    let timerType := default "generic" (getString call "type") in
    let subtitle := getString call "subtitle" in
    let detail := getString call "detail" in
    let icon := default (iconForType timerType) (getString call "icon") in
    let accentColor := default (colorForType timerType) (getString call "accentColor") in
    let customData := default ∅ (getObject call "customData") in
    let hapticOnExpire := default true (getBool call "hapticOnExpire") in
    let soundOnExpire := default true (getBool call "soundOnExpire") in
    let endDate := endTime in
    let self :=
      setTimerMetadata
        (<[id := TimerMetadata.mk endDate hapticOnExpire soundOnExpire false]>
           (timerMetadata self)) self in
    let attributes := mkAttributes id timerType icon accentColor in
    let initialState :=
      ContentState.mk title (default "" subtitle) (default "" detail) endDate customData in
    let content := mkContent initialState (Some (endDate + 60000)) in
    match request with
    | granted token =>
      let activity := mkActivity attributes content token in
      let self := setActiveTimers (<[id := activity]> (activeTimers self)) self in
      let self := startExpirationCheckTimer self in
      (self,
       Resolve (list_to_map
         [("success", JSBool true);
          ("id", JSString id);
          ("activityToken", JSString token)]),
       [])
    | refused localizedDescription =>
      (self,
       Resolve (list_to_map
         [("success", JSBool false);
          ("id", JSString id);
          ("error", JSString localizedDescription)]),
       [])
    end
  end end end.

(** [updateTimer] *)
Definition updateTimer (available : bool)
    (call : gmap string JSValue) (self : Plugin) : Plugin * CallResult * list Effect :=
  if negb available then
    (self, Reject "Live Activities require iOS 16.2 or later", [])
  else
  match getString call "id" with
  | None => (self, Reject "Timer ID is required", [])
  | Some id =>
  match getActivity self id with
  | None => (self, Reject ("Timer not found: " +:+ id), [])
  | Some activity =>
    let currentState := state (content activity) in
    let title := default (ContentState.title currentState) (getString call "title") in
    let subtitle := default (ContentState.subtitle currentState) (getString call "subtitle") in
    let detail := default (ContentState.detail currentState) (getString call "detail") in
    let endTime := default (ContentState.endTime currentState) (getDouble call "endTime") in
    let customData :=
      default (ContentState.customData currentState) (getObject call "customData") in
    let updatedState := ContentState.mk title subtitle detail endTime customData in
    let content := mkContent updatedState (Some (endTime + 60000)) in
    let activity := mkActivity (attributes activity) content (activityToken activity) in
    (setActiveTimers (<[id := activity]> (activeTimers self)) self,
     Resolve ∅,
     [activityUpdate id content])
  end end.

(** [endTimer] *)
Definition endTimer (available : bool) (now : Z)
    (call : gmap string JSValue) (self : Plugin) : Plugin * CallResult * list Effect :=
  if negb available then
    (self, Reject "Live Activities require iOS 16.2 or later", [])
  else
  match getString call "id" with
  | None => (self, Reject "Timer ID is required", [])
  | Some id =>
  match getActivity self id with
  | None => (self, Reject ("Timer not found: " +:+ id), [])
  | Some activity =>
    let dismissalPolicy := default "default" (getString call "dismissalPolicy") in
    let dismissAfterSeconds := default 0 (getDouble call "dismissAfterSeconds") in
    let finalMessage := getString call "finalMessage" in
    let finalState := state (content activity) in
    let finalState :=
      match finalMessage with
      | Some message =>
        ContentState.mk message (ContentState.subtitle finalState) "" now
          (ContentState.customData finalState)
      | None => finalState
      end in
    let finalContent := mkContent finalState None in
    let policy :=
      if decide (dismissalPolicy = "immediate") then immediate
      else if decide (dismissalPolicy = "after") then after (now + dismissAfterSeconds * 1000)
      else default_policy in
    let self := setActiveTimers (delete id (activeTimers self)) self in
    let self := setTimerMetadata (delete id (timerMetadata self)) self in
    let self := stopIfEmpty self in
    (self,
     Resolve ∅,
     [activityEnd id (Some finalContent) policy;
      notifyListeners (mkNotification "timerDismissed" (list_to_map
        [("id", JSString id);
         ("eventType", JSString "dismissed");
         ("timestamp", JSNumber now)]))])
  end end.

(** [endAllTimers] *)
Definition endAllTimers (available : bool) (self : Plugin)
    : Plugin * CallResult * list Effect :=
  if negb available then
    (self, Resolve {["endedCount" := JSNumber 0]}, [])
  else
    let count := size (activeTimers self) in
    let out := (λ e : string * Activity, activityEnd e.1 None immediate)
                 <$> map_to_list (activeTimers self) in
    let self := setActiveTimers ∅ self in
    let self := setTimerMetadata ∅ self in
    let self := stopExpirationCheckTimer self in
    (self, Resolve {["endedCount" := JSNumber (Z.of_nat count)]}, out).

(** One entry of the answer of [getActiveTimers]. *)
Definition describeTimer (now : Z) (id : string) (activity : Activity)
    : gmap string JSValue :=
  let state := state (content activity) in
  let remainingSeconds := Z.max 0 (ContentState.endTime state - now) in
  list_to_map
    [("id", JSString id);
     ("type", JSString (timerType (attributes activity)));
     ("title", JSString (ContentState.title state));
     ("subtitle", JSString (ContentState.subtitle state));
     ("detail", JSString (ContentState.detail state));
     ("endTime", JSNumber (ContentState.endTime state));
     ("remainingSeconds", JSNumber (Z.quot remainingSeconds 1000));
     ("expired", JSBool (remainingSeconds <=? 0));
     ("startedAt", JSNumber (ContentState.endTime state - remainingSeconds));
     ("customData", JSObject (ContentState.customData state))].

(** [getActiveTimers]: the array resolved under the key ["timers"]. *)
Definition getActiveTimers (available : bool) (now : Z) (self : Plugin)
    : list (gmap string JSValue) :=
  if negb available then []
  else (λ e : string * Activity, describeTimer now e.1 e.2)
         <$> map_to_list (activeTimers self).

(** [isTimerActive] *)
Definition isTimerActive (available : bool) (now : Z)
    (call : gmap string JSValue) (self : Plugin) : CallResult :=
  match getString call "id" with
  | None => Reject "Timer ID is required"
  | Some id =>
    if available then
      match getActivity self id with
      | Some activity =>
        let remainingSeconds := ContentState.endTime (state (content activity)) - now in
        Resolve {["active" := JSBool (0 <? remainingSeconds)]}
      | None => Resolve {["active" := JSBool false]}
      end
    else Resolve {["active" := JSBool false]}
  end.

(** [handleActivityStateChange], run for every state the system reports on
    the activity started under [id]. *)
Definition handleActivityStateChange (now : Z) (id : string) (s : ActivityState)
    (self : Plugin) : Plugin * list Effect :=
  let '(self, out) :=
    match s with
    | ended =>
      let self := setActiveTimers (delete id (activeTimers self)) self in
      let self := setTimerMetadata (delete id (timerMetadata self)) self in
      (self,
       [notifyListeners (mkNotification "timerExpired" (list_to_map
          [("id", JSString id);
           ("eventType", JSString "expired");
           ("timestamp", JSNumber now)]))])
    | dismissed =>
      let self := setActiveTimers (delete id (activeTimers self)) self in
      let self := setTimerMetadata (delete id (timerMetadata self)) self in
      (self, [])
    | stale => (self, [])
    | active => (self, [])
    | unknown => (self, [])
    end in
  (stopIfEmpty self, out).

(** [updateActivityToComplete] *)
Definition updateActivityToComplete (now : Z) (id : string)
    (self : Plugin) : Plugin * list Effect :=
  match getActivity self id with
  | None => (self, [])
  | Some activity =>
    let currentState := state (content activity) in
    let completedState :=
      ContentState.mk (ContentState.title currentState +:+ " - Complete")
        (ContentState.subtitle currentState) "Timer finished" now
        (ContentState.customData currentState) in
    let content := mkContent completedState None in
    let activity := mkActivity (attributes activity) content (activityToken activity) in
    (setActiveTimers (<[id := activity]> (activeTimers self)) self,
     [activityUpdate id content])
  end.

(** The body of the loop of [checkForExpiredTimers] for one entry
    [(id, metadata)] of the dictionary being traversed; [acc] is the plugin
    and the effects so far, [available] the outcome of the availability
    guard around [updateActivityToComplete]. *)
Definition checkEntry (available : bool) (now : Z) (id : string)
    (metadata : TimerMetadata.t) (acc : Plugin * list Effect) : Plugin * list Effect :=
  if TimerMetadata.hasExpired metadata then acc
  else if TimerMetadata.endTime metadata <=? now then
    let metadata :=
      TimerMetadata.mk (TimerMetadata.endTime metadata)
        (TimerMetadata.hapticOnExpire metadata)
        (TimerMetadata.soundOnExpire metadata) true in
    let self := setTimerMetadata (<[id := metadata]> (timerMetadata acc.1)) acc.1 in
    let haptic :=
      if TimerMetadata.hapticOnExpire metadata then [triggerHapticFeedback] else [] in
    let sound :=
      if TimerMetadata.soundOnExpire metadata then [triggerExpirationSound] else [] in
    let event :=
      notifyListeners (mkNotification "timerExpired" (list_to_map
        [("id", JSString id);
         ("eventType", JSString "expired");
         ("timestamp", JSNumber now)])) in
    let refreshed :=
      if available then updateActivityToComplete now id self else (self, []) in
    (refreshed.1, acc.2 ++ haptic ++ sound ++ [event] ++ refreshed.2)
  else acc.

(** [checkForExpiredTimers]: one tick of the watchdog.  The loop runs over
    the entries [timerMetadata] had when the tick began, in the order the
    dictionary enumerates them. *)
Definition checkForExpiredTimers (available : bool) (now : Z) (self : Plugin)
    : Plugin * list Effect :=
  map_fold (checkEntry available now) (self, []) (timerMetadata self).

(** A run of watchdog ticks and caller updates, the operations that act on a
    timer between its creation and its end. *)
Inductive Step :=
| scan (now : Z)
| update (call : gmap string JSValue).

Definition step (available : bool) (s : Step) (self : Plugin) : Plugin * list Effect :=
  match s with
  | scan now => checkForExpiredTimers available now self
  | update call =>
    let r := updateTimer available call self in (r.1.1, r.2)
  end.

Fixpoint run (available : bool) (steps : list Step) (self : Plugin) : Plugin * list Effect :=
  match steps with
  | [] => (self, [])
  | s :: steps =>
    let r := step available s self in
    let r' := run available steps r.1 in
    (r'.1, r.2 ++ r'.2)
  end.

(** The registry's expired flag of [id]. *)
Definition flagged (id : string) (self : Plugin) : bool :=
  match timerMetadata self !! id with
  | Some metadata => TimerMetadata.hasExpired metadata
  | None => false
  end.

(** How many [timerExpired] events about [id] a list of effects holds. *)
Definition expirations (id : string) (out : list Effect) : nat :=
  length (filter (λ n, isTimerExpiredFor id n = true) (notifications out)).

End IOS.

(** ** The web implementation *)

Module Web.

Inductive TimerType := cri | cpr | fluid | anesthesia | generic.

Definition typeName (t : TimerType) : string :=
  match t with
  | cri => "cri"
  | cpr => "cpr"
  | fluid => "fluid"
  | anesthesia => "anesthesia"
  | generic => "generic"
  end.

(** [interface StartTimerOptions]; an optional member that is left out is
    [None]. *)
Module StartTimerOptions.
Record t := mk {
  id : string;
  type : TimerType;
  title : string;
  subtitle : option string;
  detail : option string;
  endTime : Z;
  icon : option string;
  accentColor : option string;
  hapticOnExpire : option bool;
  soundOnExpire : option bool;
  customData : option (gmap string string)
}.
End StartTimerOptions.

(** [interface UpdateTimerOptions] *)
Module UpdateTimerOptions.
Record t := mk {
  id : string;
  title : option string;
  subtitle : option string;
  detail : option string;
  endTime : option Z;
  customData : option (gmap string string)
}.
End UpdateTimerOptions.

(** [interface EndTimerOptions] *)
Module EndTimerOptions.
Record t := mk {
  id : string;
  dismissalPolicy : option string;
  dismissAfterSeconds : option Z;
  finalMessage : option string
}.
End EndTimerOptions.

(** [interface ActiveTimer] *)
Module ActiveTimer.
Record t := mk {
  id : string;
  type : TimerType;
  title : string;
  subtitle : option string;
  detail : option string;
  endTime : Z;
  remainingSeconds : Z;
  expired : bool;
  startedAt : Z;
  customData : option (gmap string string)
}.
End ActiveTimer.

(** The fields of [LiveActivitiesWeb], and the part of the host they refer
    to: [scheduled] holds, for every interval handle that [setInterval] gave
    out and [clearInterval] has not cancelled, the [options] its callback
    closed over; [nextHandle] is the next handle [setInterval] returns.
    [timers] is enumerated in key order, the source's [Map] in insertion
    order. *)
Record LiveActivitiesWeb := mkWeb {
  timers : gmap string ActiveTimer.t;
  timerIntervals : gmap string Z;
  scheduled : gmap Z StartTimerOptions.t;
  nextHandle : Z
}.

Definition initial : LiveActivitiesWeb := mkWeb ∅ ∅ ∅ 1.

Definition setTimers (m : gmap string ActiveTimer.t) (self : LiveActivitiesWeb)
    : LiveActivitiesWeb :=
  mkWeb m (timerIntervals self) (scheduled self) (nextHandle self).

Definition customDataValue (c : option (gmap string string)) : JSValue :=
  match c with
  | Some o => JSObject o
  | None => JSUndefined
  end.

(** [Math.floor((endTime - Date.now()) / 1000)] *)
Definition secondsUntil (now endTime : Z) : Z := (endTime - now) `div` 1000.

Definition isSupported : CallResult :=
  Resolve (list_to_map [("supported", JSBool false); ("dynamicIsland", JSBool false)]).

(** [startTimer] *)
Definition startTimer (now : Z) (options : StartTimerOptions.t)
    (self : LiveActivitiesWeb) : LiveActivitiesWeb * CallResult :=
  let id := StartTimerOptions.id options in
  let timer :=
    ActiveTimer.mk id
      (StartTimerOptions.type options)
      (StartTimerOptions.title options)
      (StartTimerOptions.subtitle options)
      (StartTimerOptions.detail options)
      (StartTimerOptions.endTime options)
      (secondsUntil now (StartTimerOptions.endTime options))
      false
      now
      (StartTimerOptions.customData options) in
  let intervalId := nextHandle self in
  (mkWeb (<[id := timer]> (timers self))
         (<[id := intervalId]> (timerIntervals self))
         (<[intervalId := options]> (scheduled self))
         (intervalId + 1),
   Resolve (list_to_map
     [("success", JSBool true);
      ("id", JSString id);
      ("activityToken", JSString ("web-mock-" +:+ id))])).

(** The callback [startTimer] passes to [setInterval], closed over
    [options]. *)
Definition intervalCallback (now : Z) (options : StartTimerOptions.t)
    (self : LiveActivitiesWeb) : LiveActivitiesWeb * list Notification :=
  let id := StartTimerOptions.id options in
  match timers self !! id with
  | Some t =>
    let remainingSeconds := secondsUntil now (ActiveTimer.endTime t) in
    let fire := (remainingSeconds <=? 0) && negb (ActiveTimer.expired t) in
    let t :=
      ActiveTimer.mk (ActiveTimer.id t) (ActiveTimer.type t) (ActiveTimer.title t)
        (ActiveTimer.subtitle t) (ActiveTimer.detail t) (ActiveTimer.endTime t)
        remainingSeconds
        (if fire then true else ActiveTimer.expired t)
        (ActiveTimer.startedAt t) (ActiveTimer.customData t) in
    (setTimers (<[id := t]> (timers self)) self,
     if fire then
       [mkNotification "timerExpired" (list_to_map
          [("id", JSString id);
           ("eventType", JSString "expired");
           ("type", JSString (typeName (StartTimerOptions.type options)));
           ("title", JSString (StartTimerOptions.title options));
           ("customData", customDataValue (StartTimerOptions.customData options));
           ("timestamp", JSNumber now)])]
     else [])
  | None => (self, [])
  end.

(** The host runs the callback scheduled under [handle]. *)
Definition tick (now : Z) (handle : Z) (self : LiveActivitiesWeb)
    : LiveActivitiesWeb * list Notification :=
  match scheduled self !! handle with
  | Some options => intervalCallback now options self
  | None => (self, [])
  end.

(** The assignments [updateTimer] makes to the stored timer. *)
Definition applyUpdate (now : Z) (options : UpdateTimerOptions.t)
    (timer : ActiveTimer.t) : ActiveTimer.t :=
  let title := default (ActiveTimer.title timer) (UpdateTimerOptions.title options) in
  let subtitle :=
    match UpdateTimerOptions.subtitle options with
    | Some s => Some s
    | None => ActiveTimer.subtitle timer
    end in
  let detail :=
    match UpdateTimerOptions.detail options with
    | Some s => Some s
    | None => ActiveTimer.detail timer
    end in
  let '(endTime, remainingSeconds, expired) :=
    match UpdateTimerOptions.endTime options with
    | Some e => (e, secondsUntil now e, secondsUntil now e <=? 0)
    | None =>
      (ActiveTimer.endTime timer, ActiveTimer.remainingSeconds timer,
       ActiveTimer.expired timer)
    end in
  let customData :=
    match UpdateTimerOptions.customData options with
    | Some c => Some c
    | None => ActiveTimer.customData timer
    end in
  ActiveTimer.mk (ActiveTimer.id timer) (ActiveTimer.type timer) title subtitle detail
    endTime remainingSeconds expired (ActiveTimer.startedAt timer) customData.

(** [updateTimer] *)
Definition updateTimer (now : Z) (options : UpdateTimerOptions.t)
    (self : LiveActivitiesWeb) : LiveActivitiesWeb * CallResult :=
  let id := UpdateTimerOptions.id options in
  match timers self !! id with
  | None => (self, Reject ("Timer not found: " +:+ id))
  | Some timer =>
    (setTimers (<[id := applyUpdate now options timer]> (timers self)) self, Resolve ∅)
  end.

(** [endTimer] *)
Definition endTimer (now : Z) (options : EndTimerOptions.t)
    (self : LiveActivitiesWeb) : LiveActivitiesWeb * CallResult * list Notification :=
  let id := EndTimerOptions.id options in
  let '(timerIntervals, scheduled) :=
    match timerIntervals self !! id with
    | Some intervalId =>
      if decide (intervalId = 0) then (timerIntervals self, scheduled self)
      else (delete id (timerIntervals self), delete intervalId (scheduled self))
    | None => (timerIntervals self, scheduled self)
    end in
  (mkWeb (delete id (timers self)) timerIntervals scheduled (nextHandle self),
   Resolve ∅,
   [mkNotification "timerDismissed" (list_to_map
      [("id", JSString id);
       ("eventType", JSString "dismissed");
       ("type", JSString "generic");
       ("title", JSString "");
       ("timestamp", JSNumber now)])]).

(** [endAllTimers] *)
Definition endAllTimers (self : LiveActivitiesWeb) : LiveActivitiesWeb * CallResult :=
  let count := size (timers self) in
  let scheduled :=
    foldr (λ e : string * Z, delete e.2) (scheduled self)
      (map_to_list (timerIntervals self)) in
  (mkWeb ∅ ∅ scheduled (nextHandle self),
   Resolve {["endedCount" := JSNumber (Z.of_nat count)]}).

(** The two assignments [getActiveTimers] makes to every stored timer. *)
Definition refresh (now : Z) (timer : ActiveTimer.t) : ActiveTimer.t :=
  let remainingSeconds := secondsUntil now (ActiveTimer.endTime timer) in
  ActiveTimer.mk (ActiveTimer.id timer) (ActiveTimer.type timer) (ActiveTimer.title timer)
    (ActiveTimer.subtitle timer) (ActiveTimer.detail timer) (ActiveTimer.endTime timer)
    remainingSeconds (remainingSeconds <=? 0)
    (ActiveTimer.startedAt timer) (ActiveTimer.customData timer).

(** [getActiveTimers]: the stored timers are refreshed in place and copies
    of them returned. *)
Definition getActiveTimers (now : Z) (self : LiveActivitiesWeb)
    : LiveActivitiesWeb * list ActiveTimer.t :=
  let refreshed := refresh now <$> timers self in
  (setTimers refreshed self, (map_to_list refreshed).*2).

(** [isTimerActive] *)
Definition isTimerActive (id : string) (self : LiveActivitiesWeb) : bool :=
  match timers self !! id with
  | Some timer => negb (ActiveTimer.expired timer)
  | None => false
  end.

(** A run of interval callbacks and caller updates. *)
Inductive Step :=
| fires (now : Z) (handle : Z)
| update (now : Z) (options : UpdateTimerOptions.t).

Definition step (s : Step) (self : LiveActivitiesWeb)
    : LiveActivitiesWeb * list Notification :=
  match s with
  | fires now handle => tick now handle self
  | update now options => ((updateTimer now options self).1, [])
  end.

Fixpoint run (steps : list Step) (self : LiveActivitiesWeb)
    : LiveActivitiesWeb * list Notification :=
  match steps with
  | [] => (self, [])
  | s :: steps =>
    let r := step s self in
    let r' := run steps r.1 in
    (r'.1, r.2 ++ r'.2)
  end.

(** The stored expired flag of [id]. *)
Definition flagged (id : string) (self : LiveActivitiesWeb) : bool :=
  match timers self !! id with
  | Some timer => ActiveTimer.expired timer
  | None => false
  end.

(** How many [timerExpired] events about [id] a list of events holds. *)
Definition expirations (id : string) (out : list Notification) : nat :=
  length (filter (λ n, isTimerExpiredFor id n = true) out).

(** The step is not an update of [id] that moves its end time a whole second
    or more past the clock. *)
Definition keepsDeadline (id : string) (s : Step) : bool :=
  match s with
  | fires _ _ => true
  | update now options =>
    if decide (UpdateTimerOptions.id options = id) then
      match UpdateTimerOptions.endTime options with
      | Some e => secondsUntil now e <=? 0
      | None => true
      end
    else true
  end.

End Web.

(** ** Vocabulary of the statements *)

(** *** The native watchdog *)

(** An entry the watchdog acts on: not yet handled, end time reached. *)
Definition due (now : Z) (metadata : IOS.TimerMetadata.t) : bool :=
  negb (IOS.TimerMetadata.hasExpired metadata)
  && (IOS.TimerMetadata.endTime metadata <=? now).

Definition markExpired (metadata : IOS.TimerMetadata.t) : IOS.TimerMetadata.t :=
  IOS.TimerMetadata.mk (IOS.TimerMetadata.endTime metadata)
    (IOS.TimerMetadata.hapticOnExpire metadata)
    (IOS.TimerMetadata.soundOnExpire metadata) true.

(** The event [checkForExpiredTimers] sends for [id]. *)
Definition expiredEvent (now : Z) (id : string) : Notification :=
  mkNotification "timerExpired" (list_to_map
    [("id", JSString id); ("eventType", JSString "expired"); ("timestamp", JSNumber now)]).

(** *** Requests shaped like [StartTimerOptions] *)

Definition isString (v : JSValue) : bool :=
  match v with JSString _ => true | _ => false end.

Definition isNumber (v : JSValue) : bool :=
  match v with JSNumber _ => true | _ => false end.

(** The entry under [key], if there is one, has the type the interface
    declares for it. *)
Definition typed (check : JSValue → bool) (call : gmap string JSValue) (key : string)
    : bool :=
  match call !! key with
  | Some v => check v
  | None => true
  end.

(** [id: string; title: string; endTime: number] *)
Definition requiredFieldsTyped (call : gmap string JSValue) : bool :=
  typed isString call "id" && typed isString call "title" && typed isNumber call "endTime".

(** What a listed timer reports under [key]. *)
Definition reported (key : string) (timers : list (gmap string JSValue))
    : list (option JSValue) :=
  (λ timer : gmap string JSValue, timer !! key) <$> timers.

(** *** The web interval callback *)

(** The event the callback closed over [options] sends. *)
Definition webExpiredEvent (now : Z) (options : Web.StartTimerOptions.t) : Notification :=
  mkNotification "timerExpired" (list_to_map
    [("id", JSString (Web.StartTimerOptions.id options));
     ("eventType", JSString "expired");
     ("type", JSString (Web.typeName (Web.StartTimerOptions.type options)));
     ("title", JSString (Web.StartTimerOptions.title options));
     ("customData", Web.customDataValue (Web.StartTimerOptions.customData options));
     ("timestamp", JSNumber now)]).

(** Whether the callback closed over [options] sends its event at [now]:
    the timer is still stored, has no whole second left and is not flagged. *)
Definition callbackFires (now : Z) (options : Web.StartTimerOptions.t)
    (self : Web.LiveActivitiesWeb) : bool :=
  match Web.timers self !! Web.StartTimerOptions.id options with
  | Some timer =>
    (Web.secondsUntil now (Web.ActiveTimer.endTime timer) <=? 0)
    && negb (Web.ActiveTimer.expired timer)
  | None => false
  end.

(** *** Scenarios *)

Module Scenario.

(** [startTimer({id: "t1", title: "Fentanyl CRI", endTime: 5000})] *)
Definition start : gmap string JSValue :=
  list_to_map
    [("id", JSString "t1"); ("title", JSString "Fentanyl CRI"); ("endTime", JSNumber 5000)].

(** [updateTimer({id: "t1", endTime: 60000})] *)
Definition extend : gmap string JSValue :=
  list_to_map [("id", JSString "t1"); ("endTime", JSNumber 60000)].

(** [endTimer({id: "t1", dismissalPolicy: "immediate"})] *)
Definition finish : gmap string JSValue :=
  list_to_map [("id", JSString "t1"); ("dismissalPolicy", JSString "immediate")].

(** The native plugin after the first call. *)
Definition started : IOS.Plugin :=
  (IOS.startTimer true (IOS.granted "A1") start IOS.initial).1.1.

(** The same requests on the web, with an end time of one second. *)
Definition webStart : Web.StartTimerOptions.t :=
  Web.StartTimerOptions.mk "t1" Web.cri "Fentanyl CRI" None None 1000
    None None None None None.

Definition webExtend : Web.UpdateTimerOptions.t :=
  Web.UpdateTimerOptions.mk "t1" None None None (Some 10000) None.

(** [updateTimer({id: "t1", title: "Fentanyl CRI, second bag"})] *)
Definition webRename : Web.UpdateTimerOptions.t :=
  Web.UpdateTimerOptions.mk "t1" (Some "Fentanyl CRI, second bag") None None None None.

Definition webStarted : Web.LiveActivitiesWeb :=
  (Web.startTimer 0 webStart Web.initial).1.

(** The two plugins after the watchdog has seen the timer expire. *)
Definition expired : IOS.Plugin := (IOS.checkForExpiredTimers true 5000 started).1.

Definition webExpired : Web.LiveActivitiesWeb := (Web.tick 1000 1 webStarted).1.

(** Runs that follow the expiration. *)
Definition nativeSteps : list IOS.Step :=
  [IOS.update extend; IOS.scan 60000; IOS.scan 61000].

Definition webSteps : list Web.Step :=
  [Web.fires 2000 1; Web.update 2500 webRename; Web.fires 3000 1].

End Scenario.

(** ** The rest of the plugins *)

(** *** The native plugin as a whole *)

Module Native.

(** [isSupported].  [areActivitiesEnabled] is what
    [ActivityAuthorizationInfo] answers and [isPhone] whether the device's
    interface idiom is [.phone]. *)
Definition isSupported (available areActivitiesEnabled isPhone : bool) : CallResult :=
  if available then
    let supported := areActivitiesEnabled in
    let hasDynamicIsland := supported && isPhone in
    Resolve (list_to_map
      [("supported", JSBool supported); ("dynamicIsland", JSBool hasDynamicIsland)])
  else
    Resolve (list_to_map
      [("supported", JSBool false); ("dynamicIsland", JSBool false)]).

(** The content [updateActivityToComplete] gives an activity. *)
Definition completed (now : Z) (activity : IOS.Activity) : IOS.Activity :=
  let currentState := IOS.state (IOS.content activity) in
  IOS.mkActivity (IOS.attributes activity)
    (IOS.mkContent
       (IOS.ContentState.mk (IOS.ContentState.title currentState +:+ " - Complete")
          (IOS.ContentState.subtitle currentState) "Timer finished" now
          (IOS.ContentState.customData currentState))
       None)
    (IOS.activityToken activity).

(** Everything that changes the plugin: the bridged calls, the states the
    system reports on an activity, and the ticks of the watchdog. *)
Inductive Action :=
| callStartTimer (request : IOS.RequestOutcome) (call : gmap string JSValue)
| callUpdateTimer (call : gmap string JSValue)
| callEndTimer (now : Z) (call : gmap string JSValue)
| callEndAllTimers
| stateChange (now : Z) (id : string) (s : IOS.ActivityState)
| watchdogTick (now : Z).

Definition perform (available : bool) (a : Action) (self : IOS.Plugin)
    : IOS.Plugin * list IOS.Effect :=
  match a with
  | callStartTimer request call =>
    let r := IOS.startTimer available request call self in (r.1.1, r.2)
  | callUpdateTimer call =>
    let r := IOS.updateTimer available call self in (r.1.1, r.2)
  | callEndTimer now call =>
    let r := IOS.endTimer available now call self in (r.1.1, r.2)
  | callEndAllTimers =>
    let r := IOS.endAllTimers available self in (r.1.1, r.2)
  | stateChange now id s => IOS.handleActivityStateChange now id s self
  | watchdogTick now => IOS.checkForExpiredTimers available now self
  end.

(** The plugin after a sequence of actions. *)
Definition after (available : bool) (actions : list Action) (self : IOS.Plugin)
    : IOS.Plugin :=
  foldl (λ self a, (perform available a self).1) self actions.

(** The shape the plugin keeps: the watchdog is scheduled exactly while an
    activity is registered, and every registered activity carries the id it
    is registered under and has metadata. *)
Definition wellFormed (self : IOS.Plugin) : Prop :=
  (IOS.expirationCheckTimer self = true ↔ IOS.activeTimers self ≠ ∅)
  ∧ ∀ id activity,
      IOS.activeTimers self !! id = Some activity →
      IOS.id (IOS.attributes activity) = id ∧ is_Some (IOS.timerMetadata self !! id).

End Native.

(** *** The web plugin as a whole *)

Module Browser.

Inductive Action :=
| callStartTimer (now : Z) (options : Web.StartTimerOptions.t)
| callUpdateTimer (now : Z) (options : Web.UpdateTimerOptions.t)
| callEndTimer (now : Z) (options : Web.EndTimerOptions.t)
| callEndAllTimers
| callGetActiveTimers (now : Z)
| intervalFires (now : Z) (handle : Z).

Definition perform (a : Action) (self : Web.LiveActivitiesWeb) : Web.LiveActivitiesWeb :=
  match a with
  | callStartTimer now options => (Web.startTimer now options self).1
  | callUpdateTimer now options => (Web.updateTimer now options self).1
  | callEndTimer now options => (Web.endTimer now options self).1.1
  | callEndAllTimers => (Web.endAllTimers self).1
  | callGetActiveTimers now => (Web.getActiveTimers now self).1
  | intervalFires now handle => (Web.tick now handle self).1
  end.

Definition after (actions : list Action) (self : Web.LiveActivitiesWeb)
    : Web.LiveActivitiesWeb :=
  foldl (λ self a, perform a self) self actions.

(** The shape the web plugin keeps: a timer is stored exactly when an
    interval is tracked for its id; a tracked interval is scheduled and its
    callback closed over that id; a stored timer carries the id it is stored
    under; and every scheduled handle is positive and below the next one,
    which is positive too. *)
Definition wellFormed (self : Web.LiveActivitiesWeb) : Prop :=
  (∀ id, is_Some (Web.timers self !! id) ↔ is_Some (Web.timerIntervals self !! id))
  ∧ (∀ id handle,
       Web.timerIntervals self !! id = Some handle →
       ∃ options, Web.scheduled self !! handle = Some options
                  ∧ Web.StartTimerOptions.id options = id)
  ∧ (∀ id timer, Web.timers self !! id = Some timer → Web.ActiveTimer.id timer = id)
  ∧ (∀ handle options,
       Web.scheduled self !! handle = Some options → 0 < handle < Web.nextHandle self)
  ∧ 0 < Web.nextHandle self.

End Browser.

(** *** Accent colours *)

Module Color.

(** The three channels [Color.init?(hex:)] takes from the scanned number
    [rgb], each before its division by 255. *)
Definition channels (rgb : Z) : Z * Z * Z :=
  (Z.land (Z.shiftr rgb 16) 255, Z.land (Z.shiftr rgb 8) 255, Z.land rgb 255).

End Color.

(** *** More of the scenarios *)

Module Scene.

(** What [Scenario.started] holds for ["t1"]. *)
Definition activity : IOS.Activity :=
  IOS.mkActivity (IOS.mkAttributes "t1" "generic" "timer" "#8E8E93")
    (IOS.mkContent (IOS.ContentState.mk "Fentanyl CRI" "" "" 5000 ∅) (Some 65000))
    "A1".

Definition metadata : IOS.TimerMetadata.t := IOS.TimerMetadata.mk 5000 true true false.

(** What [Scenario.webStarted] holds for ["t1"]. *)
Definition timer : Web.ActiveTimer.t :=
  Web.ActiveTimer.mk "t1" Web.cri "Fentanyl CRI" None None 1000 1 false 0 None.

(** [endTimer({id: "t1"})] on the web. *)
Definition webFinish : Web.EndTimerOptions.t :=
  Web.EndTimerOptions.mk "t1" None None None.

(** A fresh web plugin on which ["t1"] has been started once. *)
Definition webActions : list Browser.Action :=
  [Browser.callStartTimer 0 Scenario.webStart].

End Scene.

(** *** A restarted timer on the web *)

Module Leak.

(** ["t1"] started twice on a fresh web plugin, then ended. *)
Definition actions : list Browser.Action :=
  [Browser.callStartTimer 0 Scenario.webStart;
   Browser.callStartTimer 0 Scenario.webStart;
   Browser.callEndTimer 100 Scene.webFinish].

(** The plugin after them: its registry is empty. *)
Definition emptied : Web.LiveActivitiesWeb := Browser.after actions Web.initial.

(** ... after [endAllTimers] on it ... *)
Definition cleared : Web.LiveActivitiesWeb := (Web.endAllTimers emptied).1.

(** ... and after ["t1"] is started once more. *)
Definition restarted : Web.LiveActivitiesWeb :=
  (Web.startTimer 200 Scenario.webStart cleared).1.

(** The same calls on a capable native platform. *)
Definition nativeActions : list Native.Action :=
  [Native.callStartTimer (IOS.granted "A1") Scenario.start;
   Native.callStartTimer (IOS.granted "A2") Scenario.start;
   Native.callEndTimer 100 Scenario.finish].

Definition nativeEmptied : IOS.Plugin := Native.after true nativeActions IOS.initial.

End Leak.

(** * Properties *)

(** ** The native watchdog, entry by entry *)

Section Watchdog.
Import IOS.
Variable available : bool.
Variable now : Z.

Lemma updateActivityToComplete_timerMetadata id self :
  timerMetadata (updateActivityToComplete now id self).1 = timerMetadata self.
Proof. unfold updateActivityToComplete, getActivity. by destruct (activeTimers self !! id). Qed.

Lemma updateActivityToComplete_effects id self :
  (updateActivityToComplete now id self).2 = []
  ∨ ∃ c, (updateActivityToComplete now id self).2 = [activityUpdate id c].
Proof.
  unfold updateActivityToComplete, getActivity.
  destruct (activeTimers self !! id); [right; eauto | by left].
Qed.

Lemma checkEntry_idle id metadata acc :
  due now metadata = false → checkEntry available now id metadata acc = acc.
Proof.
  unfold due, checkEntry. destruct (TimerMetadata.hasExpired metadata); [done|].
  simpl. by intros ->.
Qed.

Lemma checkEntry_due id metadata acc :
  due now metadata = true →
  ∃ refresh,
    (refresh = [] ∨ ∃ c, refresh = [activityUpdate id c])
    ∧ timerMetadata (checkEntry available now id metadata acc).1
      = <[id := markExpired metadata]> (timerMetadata acc.1)
    ∧ (checkEntry available now id metadata acc).2
      = acc.2
        ++ (if TimerMetadata.hapticOnExpire metadata then [triggerHapticFeedback] else [])
        ++ (if TimerMetadata.soundOnExpire metadata then [triggerExpirationSound] else [])
        ++ [notifyListeners (expiredEvent now id)] ++ refresh.
Proof.
  unfold due, checkEntry. destruct (TimerMetadata.hasExpired metadata); [done|].
  simpl. intros ->. destruct available.
  - eexists. split; [apply updateActivityToComplete_effects|].
    split; [|reflexivity]. simpl. by rewrite updateActivityToComplete_timerMetadata.
  - exists []. split; [by left|]. split; reflexivity.
Qed.

Lemma notifications_app out1 out2 :
  notifications (out1 ++ out2) = notifications out1 ++ notifications out2.
Proof. apply omap_app. Qed.

Lemma checkEntry_notifications id metadata acc :
  notifications (checkEntry available now id metadata acc).2
  = notifications acc.2 ++ (if due now metadata then [expiredEvent now id] else []).
Proof.
  destruct (due now metadata) eqn:Hdue.
  - destruct (checkEntry_due id metadata acc Hdue) as (refresh & Hr & _ & ->).
    rewrite !notifications_app. f_equal.
    destruct (TimerMetadata.hapticOnExpire metadata), (TimerMetadata.soundOnExpire metadata);
      destruct Hr as [-> | [c ->]]; reflexivity.
  - rewrite checkEntry_idle by done. by rewrite app_nil_r.
Qed.

Lemma fold_timerMetadata self (m : gmap string TimerMetadata.t) id :
  timerMetadata (map_fold (checkEntry available now) (self, []) m).1 !! id
  = match m !! id with
    | Some metadata =>
      if due now metadata then Some (markExpired metadata) else timerMetadata self !! id
    | None => timerMetadata self !! id
    end.
Proof.
  revert m. apply (map_fold_weak_ind (λ r m, timerMetadata r.1 !! id = _)).
  - by rewrite lookup_empty.
  - intros i metadata m r Hi IH. rewrite lookup_insert.
    destruct (due now metadata) eqn:Hdue.
    + destruct (checkEntry_due i metadata r Hdue) as (_ & _ & -> & _).
      rewrite lookup_insert. case_decide; [by rewrite Hdue|].
      by rewrite IH.
    + rewrite checkEntry_idle by done. rewrite IH.
      case_decide; [subst; by rewrite Hi, Hdue|done].
Qed.

(** The metadata a tick leaves behind: every due entry is marked, nothing
    else changes. *)
Lemma checkForExpiredTimers_timerMetadata self id :
  timerMetadata (checkForExpiredTimers available now self).1 !! id
  = (λ metadata, if due now metadata then markExpired metadata else metadata)
      <$> timerMetadata self !! id.
Proof.
  unfold checkForExpiredTimers. rewrite fold_timerMetadata.
  destruct (timerMetadata self !! id) as [metadata|] eqn:H; [|done].
  simpl. by destruct (due now metadata).
Qed.

Lemma expirations_app id out1 out2 :
  expirations id (out1 ++ out2) = (expirations id out1 + expirations id out2)%nat.
Proof. unfold expirations. by rewrite notifications_app, filter_app, length_app. Qed.

Lemma isTimerExpiredFor_expiredEvent id i :
  isTimerExpiredFor id (expiredEvent now i) = bool_decide (i = id).
Proof. reflexivity. Qed.

Lemma fold_expirations self (m : gmap string TimerMetadata.t) id :
  expirations id (map_fold (checkEntry available now) (self, []) m).2
  = match m !! id with
    | Some metadata => if due now metadata then 1%nat else 0%nat
    | None => 0%nat
    end.
Proof.
  revert m. apply (map_fold_weak_ind (λ r m, expirations id r.2 = _)).
  - by rewrite lookup_empty.
  - intros i metadata m r Hi IH. unfold expirations in *.
    rewrite checkEntry_notifications, filter_app, length_app, IH, lookup_insert.
    case_decide as Hid.
    + subst i. rewrite Hi. destruct (due now metadata); [|done].
      rewrite filter_cons_True; [done|]. rewrite isTimerExpiredFor_expiredEvent.
      by apply bool_decide_eq_true.
    + assert (filter (λ n, isTimerExpiredFor id n = true)
                (if due now metadata then [expiredEvent now i] else []) = []) as ->.
      { destruct (due now metadata); [|done].
        rewrite filter_cons_False; [done|]. rewrite isTimerExpiredFor_expiredEvent.
        rewrite bool_decide_eq_false_2; done. }
      simpl. lia.
Qed.

(** A tick sends one [timerExpired] for a due entry and none otherwise. *)
Lemma checkForExpiredTimers_expirations self id :
  expirations id (checkForExpiredTimers available now self).2
  = match timerMetadata self !! id with
    | Some metadata => if due now metadata then 1%nat else 0%nat
    | None => 0%nat
    end.
Proof. apply fold_expirations. Qed.

Lemma fold_events self (m : gmap string TimerMetadata.t) n :
  n ∈ notifications (map_fold (checkEntry available now) (self, []) m).2 →
  ∃ id, n = expiredEvent now id.
Proof.
  revert m. apply (map_fold_weak_ind (λ r m, n ∈ notifications r.2 → _)).
  - intros H. inversion H.
  - intros i metadata m r _ IH. rewrite checkEntry_notifications, elem_of_app.
    intros [H|H]; [by apply IH|].
    destruct (due now metadata); [|inversion H].
    apply list_elem_of_singleton in H. eauto.
Qed.

Lemma fold_feedback self (m : gmap string TimerMetadata.t) id metadata :
  m !! id = Some metadata → due now metadata = true →
  (TimerMetadata.hapticOnExpire metadata = true →
     triggerHapticFeedback ∈ (map_fold (checkEntry available now) (self, []) m).2)
  ∧ (TimerMetadata.soundOnExpire metadata = true →
     triggerExpirationSound ∈ (map_fold (checkEntry available now) (self, []) m).2).
Proof.
  intros Hm Hdue. revert m Hm.
  apply (map_fold_weak_ind
    (λ (r : Plugin * list Effect) (m : gmap string TimerMetadata.t),
       m !! id = Some metadata →
       (TimerMetadata.hapticOnExpire metadata = true → triggerHapticFeedback ∈ r.2)
       ∧ (TimerMetadata.soundOnExpire metadata = true → triggerExpirationSound ∈ r.2))).
  - by rewrite lookup_empty.
  - intros i x m r Hi IH. rewrite lookup_insert. case_decide as Hid.
    + intros Hx. injection Hx as Hx. subst x.
      destruct (checkEntry_due i metadata r Hdue) as (refresh & _ & _ & Hout).
      rewrite Hout.
      split; intros Hflag; rewrite Hflag, !elem_of_app, !list_elem_of_singleton; auto.
    + intros Hm. specialize (IH Hm). destruct (due now x) eqn:Hx.
      * destruct (checkEntry_due i x r Hx) as (refresh & _ & _ & Hout).
        rewrite Hout. split; intros Hflag; apply elem_of_app; left; by apply IH.
      * by rewrite checkEntry_idle.
Qed.
End Watchdog.

(** ** What the native [updateTimer] leaves alone *)

Lemma updateTimer_timerMetadata available call self :
  IOS.timerMetadata (IOS.updateTimer available call self).1.1 = IOS.timerMetadata self.
Proof.
  unfold IOS.updateTimer. destruct available; [|done]. simpl.
  destruct (getString call "id") as [id|]; [|done].
  by destruct (IOS.getActivity self id).
Qed.

Lemma updateTimer_notifications available call self :
  IOS.notifications (IOS.updateTimer available call self).2 = [].
Proof.
  unfold IOS.updateTimer. destruct available; [|done]. simpl.
  destruct (getString call "id") as [id|]; [|done].
  by destruct (IOS.getActivity self id).
Qed.

(** ** The web interval callback *)

Section WebWatch.
Import Web.

Lemma isTimerExpiredFor_webExpiredEvent id now options :
  isTimerExpiredFor id (webExpiredEvent now options)
  = bool_decide (StartTimerOptions.id options = id).
Proof. reflexivity. Qed.

Lemma intervalCallback_events now options self :
  (intervalCallback now options self).2
  = if callbackFires now options self then [webExpiredEvent now options] else [].
Proof.
  unfold intervalCallback, callbackFires.
  destruct (timers self !! StartTimerOptions.id options) as [t|]; [|done].
  simpl. by destruct (_ && _).
Qed.

Lemma intervalCallback_expirations id now options self :
  expirations id (intervalCallback now options self).2
  = if callbackFires now options self && bool_decide (StartTimerOptions.id options = id)
    then 1%nat else 0%nat.
Proof.
  rewrite intervalCallback_events. unfold expirations.
  destruct (callbackFires now options self); [|done]. simpl.
  case_bool_decide as Hid.
  - rewrite filter_cons_True; [done|].
    rewrite isTimerExpiredFor_webExpiredEvent. by apply bool_decide_eq_true.
  - rewrite filter_cons_False; [done|].
    rewrite isTimerExpiredFor_webExpiredEvent. by rewrite bool_decide_eq_false_2.
Qed.

Lemma intervalCallback_timers now options self id :
  timers (intervalCallback now options self).1 !! id
  = if decide (StartTimerOptions.id options = id) then
      (λ t, ActiveTimer.mk (ActiveTimer.id t) (ActiveTimer.type t) (ActiveTimer.title t)
              (ActiveTimer.subtitle t) (ActiveTimer.detail t) (ActiveTimer.endTime t)
              (secondsUntil now (ActiveTimer.endTime t))
              (if callbackFires now options self then true else ActiveTimer.expired t)
              (ActiveTimer.startedAt t) (ActiveTimer.customData t))
      <$> timers self !! id
    else timers self !! id.
Proof.
  unfold intervalCallback, callbackFires. case_decide as Hid.
  - subst id. destruct (timers self !! StartTimerOptions.id options) as [t|] eqn:Ht.
    + simpl. by rewrite lookup_insert_eq.
    + simpl. by rewrite Ht.
  - destruct (timers self !! StartTimerOptions.id options) as [t|] eqn:Ht; [|done].
    simpl. by rewrite lookup_insert_ne.
Qed.

Lemma tick_expirations id now handle self :
  expirations id (tick now handle self).2
  = match scheduled self !! handle with
    | Some options =>
      if callbackFires now options self && bool_decide (StartTimerOptions.id options = id)
      then 1%nat else 0%nat
    | None => 0%nat
    end.
Proof.
  unfold tick. destruct (scheduled self !! handle); [|done].
  apply intervalCallback_expirations.
Qed.

(** The web sibling re-reads the stored end time on every tick, so an update
    that moves it postpones the expiration. *)
Lemma updateTimer_postpones now options self timer e :
  timers self !! UpdateTimerOptions.id options = Some timer →
  UpdateTimerOptions.endTime options = Some e →
  ∀ now' handle,
    0 < secondsUntil now' e →
    expirations (UpdateTimerOptions.id options)
      (tick now' handle (updateTimer now options self).1).2 = 0%nat.
Proof.
  intros Ht He now' handle Hlater. rewrite tick_expirations.
  unfold updateTimer. rewrite Ht. simpl.
  destruct (scheduled self !! handle) as [o|]; [|done].
  case_bool_decide as Hid; [|by rewrite andb_false_r].
  unfold callbackFires. simpl. rewrite Hid, lookup_insert_eq.
  unfold applyUpdate. rewrite He. simpl.
  destruct (secondsUntil now' e <=? 0) eqn:Hle; [lia|done].
Qed.
End WebWatch.

(** ** Runs of scans and updates *)

Section NativeRuns.
Import IOS.
Variable available : bool.
Variable id : string.

Lemma scan_keeps_flag now self :
  flagged id self = true →
  flagged id (checkForExpiredTimers available now self).1 = true
  ∧ expirations id (checkForExpiredTimers available now self).2 = 0%nat.
Proof.
  unfold flagged.
  rewrite checkForExpiredTimers_expirations, checkForExpiredTimers_timerMetadata.
  destruct (timerMetadata self !! id) as [metadata|]; [|done]. simpl.
  intros H. unfold due. by rewrite H.
Qed.

Lemma scan_fires_once now self :
  (expirations id (checkForExpiredTimers available now self).2 ≤ 1)%nat
  ∧ (expirations id (checkForExpiredTimers available now self).2 = 1%nat →
     flagged id (checkForExpiredTimers available now self).1 = true).
Proof.
  unfold flagged.
  rewrite checkForExpiredTimers_expirations, checkForExpiredTimers_timerMetadata.
  destruct (timerMetadata self !! id) as [metadata|]; simpl; [|split; [lia|done]].
  destruct (due now metadata); split; (lia || done).
Qed.

Lemma update_keeps_flag call self :
  flagged id (updateTimer available call self).1.1 = flagged id self
  ∧ expirations id (updateTimer available call self).2 = 0%nat.
Proof.
  unfold flagged, expirations.
  by rewrite updateTimer_timerMetadata, updateTimer_notifications.
Qed.

Lemma step_keeps_flag s self :
  flagged id self = true →
  flagged id (step available s self).1 = true
  ∧ expirations id (step available s self).2 = 0%nat.
Proof.
  destruct s as [now|call]; simpl.
  - apply scan_keeps_flag.
  - intros H. destruct (update_keeps_flag call self) as [-> ->]. done.
Qed.

Lemma step_fires_once s self :
  (expirations id (step available s self).2 ≤ 1)%nat
  ∧ (expirations id (step available s self).2 = 1%nat →
     flagged id (step available s self).1 = true).
Proof.
  destruct s as [now|call]; simpl.
  - apply scan_fires_once.
  - destruct (update_keeps_flag call self) as [_ ->]. split; [lia|done].
Qed.

Lemma run_keeps_flag steps self :
  flagged id self = true →
  flagged id (run available steps self).1 = true
  ∧ expirations id (run available steps self).2 = 0%nat.
Proof.
  revert self. induction steps as [|s steps IH]; intros self H; [done|].
  simpl. destruct (step_keeps_flag s self H) as [Hflag Hnone].
  destruct (IH _ Hflag) as [Hflag' Hnone'].
  by rewrite expirations_app, Hnone, Hnone'.
Qed.

Lemma run_fires_once steps self :
  (expirations id (run available steps self).2 ≤ 1)%nat.
Proof.
  revert self. induction steps as [|s steps IH]; intros self;
    [simpl; unfold expirations; simpl; lia|].
  simpl. rewrite expirations_app.
  destruct (step_fires_once s self) as [Hle Hone].
  destruct (decide (expirations id (step available s self).2 = 1%nat)) as [H1|H1].
  - destruct (run_keeps_flag steps _ (Hone H1)) as [_ ->]. lia.
  - specialize (IH (step available s self).1). lia.
Qed.
End NativeRuns.

Section WebRuns.
Import Web.
Variable id : string.

Lemma web_expirations_app out1 out2 :
  expirations id (out1 ++ out2) = (expirations id out1 + expirations id out2)%nat.
Proof. unfold expirations. by rewrite filter_app, length_app. Qed.

Lemma tick_keeps_flag now handle self :
  flagged id self = true →
  flagged id (tick now handle self).1 = true
  ∧ expirations id (tick now handle self).2 = 0%nat.
Proof.
  intros H. rewrite tick_expirations. unfold tick.
  destruct (scheduled self !! handle) as [options|]; [|done].
  unfold flagged in *. rewrite intervalCallback_timers.
  case_decide as Hid.
  - rewrite bool_decide_eq_true_2 by done. unfold callbackFires. rewrite Hid.
    destruct (timers self !! id) as [t|]; [|done]. simpl in *.
    rewrite H. by rewrite andb_false_r.
  - rewrite bool_decide_eq_false_2 by done. by rewrite andb_false_r.
Qed.

Lemma tick_fires_once now handle self :
  (expirations id (tick now handle self).2 ≤ 1)%nat
  ∧ (expirations id (tick now handle self).2 = 1%nat →
     flagged id (tick now handle self).1 = true).
Proof.
  rewrite tick_expirations. unfold tick.
  destruct (scheduled self !! handle) as [options|]; [|split; [lia|done]].
  destruct (callbackFires now options self && bool_decide (StartTimerOptions.id options = id))
    eqn:Hfire; [|split; [lia|done]].
  split; [lia|]. intros _. apply andb_true_iff in Hfire as [Hfire Hid].
  apply bool_decide_eq_true in Hid. unfold flagged. rewrite intervalCallback_timers.
  rewrite decide_True by done. rewrite Hfire.
  unfold callbackFires in Hfire. rewrite Hid in Hfire.
  by destruct (timers self !! id).
Qed.

Lemma updateTimer_keeps_flag now options self :
  keepsDeadline id (update now options) = true →
  flagged id self = true →
  flagged id (updateTimer now options self).1 = true.
Proof.
  unfold keepsDeadline, flagged, updateTimer. intros Hkeep H.
  destruct (timers self !! UpdateTimerOptions.id options) as [t|] eqn:Ht; [|done].
  simpl. case_decide as Hid.
  - rewrite <- Hid in *. rewrite lookup_insert_eq. rewrite Ht in H.
    unfold applyUpdate. destruct (UpdateTimerOptions.endTime options); simpl; done.
  - by rewrite lookup_insert_ne.
Qed.

Lemma web_step_keeps_flag s self :
  keepsDeadline id s = true →
  flagged id self = true →
  flagged id (step s self).1 = true ∧ expirations id (step s self).2 = 0%nat.
Proof.
  destruct s as [now handle|now options]; simpl step.
  - intros _. apply tick_keeps_flag.
  - intros Hkeep H. split; [by apply updateTimer_keeps_flag|done].
Qed.

Lemma web_step_fires_once s self :
  (expirations id (step s self).2 ≤ 1)%nat
  ∧ (expirations id (step s self).2 = 1%nat → flagged id (step s self).1 = true).
Proof.
  destruct s as [now handle|now options]; simpl step.
  - apply tick_fires_once.
  - split; [unfold expirations; simpl; lia|done].
Qed.

Lemma web_run_keeps_flag steps self :
  Forall (λ s, keepsDeadline id s = true) steps →
  flagged id self = true →
  flagged id (run steps self).1 = true ∧ expirations id (run steps self).2 = 0%nat.
Proof.
  intros Hsteps. revert self.
  induction Hsteps as [|s steps Hs _ IH]; intros self H; [done|].
  simpl. destruct (web_step_keeps_flag s self Hs H) as [Hflag Hnone].
  destruct (IH _ Hflag) as [Hflag' Hnone'].
  by rewrite web_expirations_app, Hnone, Hnone'.
Qed.

Lemma web_run_fires_once steps self :
  Forall (λ s, keepsDeadline id s = true) steps →
  (expirations id (run steps self).2 ≤ 1)%nat.
Proof.
  intros Hsteps. revert self.
  induction Hsteps as [|s steps Hs Hsteps IH]; intros self; [unfold expirations; simpl; lia|].
  simpl. rewrite web_expirations_app.
  destruct (web_step_fires_once s self) as [Hle Hone].
  destruct (decide (expirations id (step s self).2 = 1%nat)) as [H1|H1].
  - destruct (web_run_keeps_flag steps _ Hsteps (Hone H1)) as [_ ->]. lia.
  - specialize (IH (step s self).1). lia.
Qed.
End WebRuns.

(** ** Updating the end time (C1) *)

(** C1, on the native plugin.  [updateTimer] moves the end time of the
    activity's content state to 60000 but leaves the entry of [timerMetadata]
    at the old end time 5000, the only one the watchdog reads.  The tick at
    5000, long before the new end time, sets the expired flag, asks for the
    haptic and the sound and sends [timerExpired] for ["t1"]: the expiration
    pending at the old end time is not cancelled. *)
Theorem updateTimer_leaves_old_deadline_armed :
  let updated := (IOS.updateTimer true Scenario.extend Scenario.started).1.1 in
  (IOS.ContentState.endTime ∘ IOS.state ∘ IOS.content) <$> IOS.activeTimers updated !! "t1"
    = Some 60000
  ∧ IOS.TimerMetadata.endTime <$> IOS.timerMetadata updated !! "t1" = Some 5000
  ∧ (IOS.checkForExpiredTimers true 5000 updated).2
    = [IOS.triggerHapticFeedback;
       IOS.triggerExpirationSound;
       IOS.notifyListeners (expiredEvent 5000 "t1");
       IOS.activityUpdate "t1"
         (IOS.mkContent
            (IOS.ContentState.mk "Fentanyl CRI - Complete" "" "Timer finished" 5000 ∅)
            None)]
  ∧ IOS.flagged "t1" (IOS.checkForExpiredTimers true 5000 updated).1 = true.
Proof. vm_compute. repeat split. Qed.

(** The web implementation does what C1 asks: its callback reads the stored
    end time on every tick, so after an update no tick sends [timerExpired]
    for the timer while a whole second is left until the new end time. *)
Lemma web_updateTimer_postpones_expiration now options self timer e :
  Web.timers self !! Web.UpdateTimerOptions.id options = Some timer →
  Web.UpdateTimerOptions.endTime options = Some e →
  ∀ now' handle,
    0 < Web.secondsUntil now' e →
    Web.expirations (Web.UpdateTimerOptions.id options)
      (Web.tick now' handle (Web.updateTimer now options self).1).2 = 0%nat.
Proof. apply updateTimer_postpones. Qed.

(** ** The payload of [timerExpired] (C2) *)

(** C2, on the native plugin.  The event the watchdog sends when ["t1"]
    expires carries [id], [eventType] and [timestamp], and none of [type],
    [title] and [customData]. *)
Theorem watchdog_event_has_three_fields :
  ∃ n,
    IOS.notifications (IOS.checkForExpiredTimers true 5000 Scenario.started).2 = [n]
    ∧ eventName n = "timerExpired"
    ∧ carries n "id" = true
    ∧ carries n "eventType" = true
    ∧ carries n "timestamp" = true
    ∧ carries n "type" = false
    ∧ carries n "title" = false
    ∧ carries n "customData" = false.
Proof. eexists. vm_compute. repeat split. Qed.

Lemma expiredEvent_fields now id :
  dom (data (expiredEvent now id)) = {["id"; "eventType"; "timestamp"]}.
Proof. unfold expiredEvent. simpl. rewrite !dom_insert_L, dom_empty_L. set_solver. Qed.

(** The same holds of every event of every tick of the native watchdog. *)
Lemma checkForExpiredTimers_events available now self n :
  n ∈ IOS.notifications (IOS.checkForExpiredTimers available now self).2 →
  dom (data n) = {["id"; "eventType"; "timestamp"]}.
Proof. intros H. apply fold_events in H as [id ->]. apply expiredEvent_fields. Qed.

(** The web implementation sends all six fields with every [timerExpired]. *)
Lemma web_tick_events now handle self n :
  n ∈ (Web.tick now handle self).2 →
  eventName n = "timerExpired"
  ∧ dom (data n) = {["id"; "eventType"; "type"; "title"; "customData"; "timestamp"]}.
Proof.
  unfold Web.tick. destruct (Web.scheduled self !! handle) as [options|]; [|by inversion 1].
  rewrite intervalCallback_events. destruct (callbackFires now options self); [|by inversion 1].
  intros ->%list_elem_of_singleton. split; [done|].
  unfold webExpiredEvent. simpl. rewrite !dom_insert_L, dom_empty_L. set_solver.
Qed.

(** ** Monotonicity of the expired flag (C3) *)

Lemma forallb_keepsDeadline id steps :
  forallb (Web.keepsDeadline id) steps = true →
  Forall (λ s, Web.keepsDeadline id s = true) steps.
Proof.
  induction steps as [|s steps IH]; simpl; [constructor|].
  intros [Hs Hsteps]%andb_true_iff. constructor; auto.
Qed.

(** C3 as stated fails on the web: the tick at 1000 flags ["t1"] expired, the
    update at 2000 that moves the end time to 10000 sets the flag back to
    false, and the tick at 10000 sends a second [timerExpired]. *)
Lemma web_update_past_now_clears_expired :
  Web.flagged "t1" (Web.run [Web.fires 1000 1] Scenario.webStarted).1 = true
  ∧ Web.flagged "t1"
      (Web.run [Web.fires 1000 1; Web.update 2000 Scenario.webExtend] Scenario.webStarted).1
    = false
  ∧ Web.expirations "t1"
      (Web.run [Web.fires 1000 1; Web.update 2000 Scenario.webExtend; Web.fires 10000 1]
         Scenario.webStarted).2
    = 2%nat.
Proof. vm_compute. repeat split. Qed.

(** C3, amended.  Over every run of watchdog ticks and caller updates, a
    flag that is set stays set and no [timerExpired] is sent for its id, and
    from any state at most one [timerExpired] is sent for an id: on the
    native plugin for all such runs, on the web for the runs in which no
    update of that id supplies an end time a whole second or more past the
    clock. *)
Theorem expired_flag_sticks_unless_web_update_extends
    (id : string) (available : bool)
    (native : IOS.Plugin) (nativeSteps : list IOS.Step)
    (web : Web.LiveActivitiesWeb) (webSteps : list Web.Step) :
  forallb (Web.keepsDeadline id) webSteps = true →
  (IOS.flagged id native = true →
     IOS.flagged id (IOS.run available nativeSteps native).1 = true
     ∧ IOS.expirations id (IOS.run available nativeSteps native).2 = 0%nat)
  ∧ (IOS.expirations id (IOS.run available nativeSteps native).2 ≤ 1)%nat
  ∧ (Web.flagged id web = true →
     Web.flagged id (Web.run webSteps web).1 = true
     ∧ Web.expirations id (Web.run webSteps web).2 = 0%nat)
  ∧ (Web.expirations id (Web.run webSteps web).2 ≤ 1)%nat.
Proof.
  intros Hsteps%forallb_keepsDeadline. split; [apply run_keeps_flag|].
  split; [apply run_fires_once|].
  split; [by apply web_run_keeps_flag|by apply web_run_fires_once].
Qed.

(** ** Ending a timer before it expires (C4) *)

(** C4, on the native plugin.  ["t1"] is ended at 1000, before its end time
    5000, and the listing no longer shows it; when the system then reports
    the activity as [ended], [handleActivityStateChange] sends [timerExpired]
    for ["t1"]. *)
Theorem ended_state_after_endTimer_sends_timerExpired :
  let ended := IOS.endTimer true 1000 Scenario.finish Scenario.started in
  let reported := IOS.handleActivityStateChange 1001 "t1" IOS.ended ended.1.1 in
  ended.1.2 = Resolve ∅
  ∧ IOS.getActiveTimers true 1000 ended.1.1 = []
  ∧ IOS.notifications reported.2 = [expiredEvent 1001 "t1"]
  ∧ IOS.expirations "t1" reported.2 = 1%nat.
Proof. vm_compute. repeat split. Qed.

Lemma web_step_absent id s self :
  Web.timers self !! id = None →
  Web.timers (Web.step s self).1 !! id = None
  ∧ Web.expirations id (Web.step s self).2 = 0%nat.
Proof.
  intros Habsent. destruct s as [now handle|now options]; simpl.
  - rewrite tick_expirations. unfold Web.tick.
    destruct (Web.scheduled self !! handle) as [o|]; [|done].
    rewrite intervalCallback_timers. unfold callbackFires.
    case_decide as Hid.
    + rewrite Hid, Habsent. done.
    + rewrite bool_decide_eq_false_2 by done. by rewrite andb_false_r.
  - split; [|done]. unfold Web.updateTimer.
    destruct (Web.timers self !! Web.UpdateTimerOptions.id options) eqn:Ht; [|done].
    simpl. rewrite lookup_insert_ne; [done|]. intros Hid. congruence.
Qed.

(** The web implementation does what C4 asks: once [endTimer] has removed a
    timer, no run of callbacks and updates brings it back or sends
    [timerExpired] for it, and the listing shows stored timers only. *)
Lemma web_endTimer_cancels now options self steps :
  let ended := (Web.endTimer now options self).1.1 in
  Web.timers (Web.run steps ended).1 !! Web.EndTimerOptions.id options = None
  ∧ Web.expirations (Web.EndTimerOptions.id options) (Web.run steps ended).2 = 0%nat.
Proof.
  simpl. set (id := Web.EndTimerOptions.id options).
  assert (Web.timers (Web.endTimer now options self).1.1 !! id = None) as Habsent.
  { unfold Web.endTimer. fold id.
    destruct (Web.timerIntervals self !! id) as [h|]; [destruct (decide (h = 0))|];
      simpl; apply lookup_delete_eq. }
  revert Habsent. generalize (Web.endTimer now options self).1.1 as ended.
  induction steps as [|s steps IH]; intros ended Habsent; [done|].
  simpl. destruct (web_step_absent id s ended Habsent) as [Hgone Hnone].
  destruct (IH _ Hgone) as [Hgone' Hnone'].
  by rewrite web_expirations_app, Hnone, Hnone'.
Qed.


(** ** The reported start time (C5) *)

(** C5, on the native plugin.  The timer ["t1"], created once with end time
    5000, is listed with [startedAt] 1000 when the clock reads 1000, 2000
    when it reads 2000 and 5000 when it reads 9000: the listing reports the
    clock (or, once expired, the end time), not the creation time. *)
Theorem listed_startedAt_follows_the_clock :
  reported "startedAt" (IOS.getActiveTimers true 1000 Scenario.started)
    = [Some (JSNumber 1000)]
  ∧ reported "startedAt" (IOS.getActiveTimers true 2000 Scenario.started)
    = [Some (JSNumber 2000)]
  ∧ reported "startedAt" (IOS.getActiveTimers true 9000 Scenario.started)
    = [Some (JSNumber 5000)].
Proof. vm_compute. repeat split. Qed.

(** For every listed activity, the native [startedAt] is the smaller of the
    clock and the end time. *)
Lemma describeTimer_startedAt now id activity :
  IOS.describeTimer now id activity !! "startedAt"
  = Some (JSNumber (Z.min now (IOS.ContentState.endTime (IOS.state (IOS.content activity))))).
Proof.
  unfold IOS.describeTimer.
  assert (∀ e, e - Z.max 0 (e - now) = Z.min now e) as <- by lia.
  reflexivity.
Qed.

Lemma web_step_startedAt id s self timer :
  Web.timers self !! id = Some timer →
  ∃ timer', Web.timers (Web.step s self).1 !! id = Some timer'
            ∧ Web.ActiveTimer.startedAt timer' = Web.ActiveTimer.startedAt timer.
Proof.
  intros Hstored. destruct s as [now handle|now options]; simpl.
  - unfold Web.tick. destruct (Web.scheduled self !! handle) as [o|]; [|eauto].
    rewrite intervalCallback_timers, Hstored. case_decide; simpl; eauto.
  - unfold Web.updateTimer.
    destruct (Web.timers self !! Web.UpdateTimerOptions.id options) as [t|] eqn:Ht; [|eauto].
    simpl. destruct (decide (Web.UpdateTimerOptions.id options = id)) as [Hid|Hid].
    + rewrite Hid in *. rewrite lookup_insert_eq. eexists. split; [done|].
      unfold Web.applyUpdate. replace t with timer by congruence.
      by destruct (Web.UpdateTimerOptions.endTime options).
    + rewrite lookup_insert_ne by done. eauto.
Qed.

Lemma web_run_startedAt id steps self timer :
  Web.timers self !! id = Some timer →
  ∃ timer', Web.timers (Web.run steps self).1 !! id = Some timer'
            ∧ Web.ActiveTimer.startedAt timer' = Web.ActiveTimer.startedAt timer.
Proof.
  revert self timer. induction steps as [|s steps IH]; intros self timer Hstored; [eauto|].
  simpl. destruct (web_step_startedAt id s self timer Hstored) as (timer' & Hs' & Hat').
  destruct (IH _ _ Hs') as (timer'' & Hs'' & Hat''). exists timer''. split; [done|congruence].
Qed.

(** The web implementation does what C5 asks: [startTimer] stores the clock
    as [startedAt], no run of callbacks and updates changes it, and the
    listing reports the stored value. *)
Lemma web_startedAt_is_creation_time now options self steps :
  ∃ timer,
    Web.timers (Web.run steps (Web.startTimer now options self).1).1
      !! Web.StartTimerOptions.id options = Some timer
    ∧ Web.ActiveTimer.startedAt timer = now
    ∧ ∀ now', Web.ActiveTimer.startedAt (Web.refresh now' timer) = now.
Proof.
  edestruct (web_run_startedAt (Web.StartTimerOptions.id options) steps
               (Web.startTimer now options self).1) as (timer & Hstored & Hat).
  { unfold Web.startTimer. simpl. apply lookup_insert_eq. }
  exists timer. split; [done|]. split; [done|]. by intros now'.
Qed.

(** ** The listing (C6) *)

(** C6, on the web.  ["t1"] has end time 1000; listed when the clock reads
    2500 it reports [remainingSeconds] -2, where the clamped value is 0. *)
Theorem web_listing_reports_negative_remainingSeconds :
  Web.ActiveTimer.endTime <$> (Web.getActiveTimers 2500 Scenario.webStarted).2 = [1000]
  ∧ Web.ActiveTimer.remainingSeconds <$> (Web.getActiveTimers 2500 Scenario.webStarted).2
    = [-2]
  ∧ Z.max 0 (1000 - 2500) `quot` 1000 = 0.
Proof. vm_compute. repeat split. Qed.

(** The native listing does what C6 asks: it clamps the remaining time at
    zero before truncating it to whole seconds, so the reported
    [remainingSeconds] is never negative, and reports [expired] exactly when
    the clamped remaining time is zero. *)
Lemma describeTimer_remainingSeconds now id activity :
  let endTime := IOS.ContentState.endTime (IOS.state (IOS.content activity)) in
  IOS.describeTimer now id activity !! "remainingSeconds"
    = Some (JSNumber (Z.max 0 (endTime - now) `quot` 1000))
  ∧ 0 ≤ Z.max 0 (endTime - now) `quot` 1000
  ∧ IOS.describeTimer now id activity !! "expired"
    = Some (JSBool (Z.max 0 (endTime - now) <=? 0)).
Proof. simpl. repeat split. apply Z.quot_pos; lia. Qed.

(** The truncation shows in the last second before the end time: with 500
    milliseconds left the native listing reports [remainingSeconds] 0 and
    [expired] false. *)
Lemma native_listing_in_the_last_second :
  reported "remainingSeconds" (IOS.getActiveTimers true 4500 Scenario.started)
    = [Some (JSNumber 0)]
  ∧ reported "expired" (IOS.getActiveTimers true 4500 Scenario.started)
    = [Some (JSBool false)].
Proof. vm_compute. repeat split. Qed.

(** ** Validation in [startTimer] (C7) *)

Lemma getString_missing call key :
  typed isString call key = true → (getString call key = None ↔ call !! key = None).
Proof.
  unfold typed, getString. destruct (call !! key) as [[]|]; naive_solver.
Qed.

Lemma getDouble_missing call key :
  typed isNumber call key = true → (getDouble call key = None ↔ call !! key = None).
Proof.
  unfold typed, getDouble. destruct (call !! key) as [[]|]; naive_solver.
Qed.

(** C7.  For a request whose [id], [title] and [endTime], where present,
    have the declared types: on a capable platform the native [startTimer]
    rejects exactly when one of the three is missing; on a platform without
    the capability it resolves with [success: false] and an [error]; whenever
    it does not reject it resolves with a [success] flag; and when
    [Activity.request] throws, the flag is false and [error] is the
    description of what was thrown. *)
Theorem startTimer_rejects_exactly_missing_required_fields
    (available : bool) (request : IOS.RequestOutcome)
    (call : gmap string JSValue) (self : IOS.Plugin) :
  requiredFieldsTyped call = true →
  let result := (IOS.startTimer available request call self).1.2 in
  (available = true →
     (isReject result = true
      ↔ call !! "id" = None ∨ call !! "title" = None ∨ call !! "endTime" = None))
  ∧ (available = false →
     ∃ payload description,
       result = Resolve payload
       ∧ payload !! "success" = Some (JSBool false)
       ∧ payload !! "error" = Some (JSString description))
  ∧ (isReject result = false →
     ∃ payload flag, result = Resolve payload ∧ payload !! "success" = Some (JSBool flag))
  ∧ (∀ description,
       available = true → isReject result = false → request = IOS.refused description →
       ∃ payload,
         result = Resolve payload
         ∧ payload !! "success" = Some (JSBool false)
         ∧ payload !! "error" = Some (JSString description)).
Proof.
  unfold requiredFieldsTyped. intros [[Hid Htitle]%andb_true_iff Hend]%andb_true_iff.
  apply getString_missing in Hid, Htitle. apply getDouble_missing in Hend.
  rewrite <- Hid, <- Htitle, <- Hend. clear Hid Htitle Hend.
  unfold IOS.startTimer. destruct available; simpl.
  - destruct (getString call "id") as [id|];
      [|split; [intros _; split; auto | repeat split; done]].
    destruct (getString call "title") as [title|];
      [|split; [intros _; split; auto | repeat split; done]].
    destruct (getDouble call "endTime") as [endTime|];
      [|split; [intros _; split; auto | repeat split; done]].
    destruct request as [token|description]; simpl;
      (split; [intros _; split; [done | intros [?|[?|?]]; done] |]);
      (split; [done|]); (split; [eauto|]); intros d _ _ Hd; [done|].
    injection Hd as <-. eauto.
  - split; [done|]. split; [eauto|]. split; [eauto|]. done.
Qed.

(** ** Partial updates (C8) *)

(** C8 as stated fails on the web: an update that supplies [endTime] alone
    also rewrites the stored [expired] (true to false) and [remainingSeconds]
    (0 to 8), neither of which is in the request. *)
Lemma web_update_of_endTime_rewrites_other_fields :
  let before := Web.timers (Web.tick 1000 1 Scenario.webStarted).1 !! "t1" in
  let after :=
    Web.timers
      (Web.updateTimer 2000 Scenario.webExtend (Web.tick 1000 1 Scenario.webStarted).1).1
      !! "t1" in
  Web.UpdateTimerOptions.title Scenario.webExtend = None
  ∧ Web.ActiveTimer.expired <$> before = Some true
  ∧ Web.ActiveTimer.expired <$> after = Some false
  ∧ Web.ActiveTimer.remainingSeconds <$> before = Some 0
  ∧ Web.ActiveTimer.remainingSeconds <$> after = Some 8.
Proof. vm_compute. repeat split. Qed.

(** C8, amended.  [updateTimer] on an id that is not registered rejects with
    a not-found error.  On a registered id it replaces that timer only, and
    in it overwrites each of [title], [subtitle], [detail], [endTime] and
    [customData] (the whole map) with the supplied value and keeps the old
    one where none is supplied; nothing else changes, except that on the web
    a supplied [endTime] also recomputes [remainingSeconds] and [expired]
    from it. *)
Theorem updateTimer_overwrites_supplied_fields
    (call : gmap string JSValue) (id : string) (native : IOS.Plugin)
    (now : Z) (options : Web.UpdateTimerOptions.t) (web : Web.LiveActivitiesWeb) :
  getString call "id" = Some id →
  match IOS.activeTimers native !! id with
  | None =>
    IOS.updateTimer true call native = (native, Reject ("Timer not found: " +:+ id), [])
  | Some activity =>
    ∃ activity',
      (IOS.updateTimer true call native).1
      = (IOS.setActiveTimers (<[id := activity']> (IOS.activeTimers native)) native,
         Resolve ∅)
      ∧ IOS.attributes activity' = IOS.attributes activity
      ∧ IOS.activityToken activity' = IOS.activityToken activity
      ∧ let old := IOS.state (IOS.content activity) in
        let new := IOS.state (IOS.content activity') in
        IOS.ContentState.title new
          = default (IOS.ContentState.title old) (getString call "title")
        ∧ IOS.ContentState.subtitle new
          = default (IOS.ContentState.subtitle old) (getString call "subtitle")
        ∧ IOS.ContentState.detail new
          = default (IOS.ContentState.detail old) (getString call "detail")
        ∧ IOS.ContentState.endTime new
          = default (IOS.ContentState.endTime old) (getDouble call "endTime")
        ∧ IOS.ContentState.customData new
          = default (IOS.ContentState.customData old) (getObject call "customData")
  end
  ∧ match Web.timers web !! Web.UpdateTimerOptions.id options with
    | None =>
      Web.updateTimer now options web
      = (web, Reject ("Timer not found: " +:+ Web.UpdateTimerOptions.id options))
    | Some timer =>
      ∃ timer',
        Web.updateTimer now options web
        = (Web.setTimers (<[Web.UpdateTimerOptions.id options := timer']> (Web.timers web)) web,
           Resolve ∅)
        ∧ Web.ActiveTimer.id timer' = Web.ActiveTimer.id timer
        ∧ Web.ActiveTimer.type timer' = Web.ActiveTimer.type timer
        ∧ Web.ActiveTimer.startedAt timer' = Web.ActiveTimer.startedAt timer
        ∧ Web.ActiveTimer.title timer'
          = default (Web.ActiveTimer.title timer) (Web.UpdateTimerOptions.title options)
        ∧ Web.ActiveTimer.subtitle timer'
          = from_option Some (Web.ActiveTimer.subtitle timer)
              (Web.UpdateTimerOptions.subtitle options)
        ∧ Web.ActiveTimer.detail timer'
          = from_option Some (Web.ActiveTimer.detail timer)
              (Web.UpdateTimerOptions.detail options)
        ∧ Web.ActiveTimer.endTime timer'
          = default (Web.ActiveTimer.endTime timer) (Web.UpdateTimerOptions.endTime options)
        ∧ Web.ActiveTimer.customData timer'
          = from_option Some (Web.ActiveTimer.customData timer)
              (Web.UpdateTimerOptions.customData options)
        ∧ match Web.UpdateTimerOptions.endTime options with
          | None =>
            Web.ActiveTimer.remainingSeconds timer' = Web.ActiveTimer.remainingSeconds timer
            ∧ Web.ActiveTimer.expired timer' = Web.ActiveTimer.expired timer
          | Some e =>
            Web.ActiveTimer.remainingSeconds timer' = Web.secondsUntil now e
            ∧ Web.ActiveTimer.expired timer' = (Web.secondsUntil now e <=? 0)
          end
    end.
Proof.
  intros Hid. split.
  - unfold IOS.updateTimer, IOS.getActivity. simpl. rewrite Hid.
    destruct (IOS.activeTimers native !! id) as [activity|]; [|done].
    eexists. split; [reflexivity|]. simpl. repeat split.
  - unfold Web.updateTimer.
    destruct (Web.timers web !! Web.UpdateTimerOptions.id options) as [timer|]; [|done].
    eexists. split; [reflexivity|]. unfold Web.applyUpdate.
    destruct options as [i t s d e c]. simpl.
    destruct t, s, d, e, c; simpl; repeat split.
Qed.

(** ** Ending every timer (C9) *)

Lemma foldr_clearInterval
    (handles : list (string * Z)) (scheduled : gmap Z Web.StartTimerOptions.t) :
  (∀ h, h ∈ handles.*2 →
        foldr (λ e : string * Z, delete e.2) scheduled handles !! h = None)
  ∧ (∀ h options,
        foldr (λ e : string * Z, delete e.2) scheduled handles !! h = Some options →
        scheduled !! h = Some options).
Proof.
  induction handles as [|[id h0] handles [IH1 IH2]]; simpl.
  - split; [intros h H; inversion H|done].
  - split.
    + intros h [->|H]%elem_of_cons; [apply lookup_delete_eq|].
      rewrite lookup_delete. case_decide; [done|]. by apply IH1.
    + intros h options. rewrite lookup_delete. case_decide; [done|]. apply IH2.
Qed.

(** What [endAllTimers] does in any state: it never rejects.  On a capable
    native platform it leaves both dictionaries empty and the watchdog
    stopped and resolves with the number of registered activities; without
    the capability, where nothing is ever registered, it resolves with 0 and
    touches nothing.  On the web it leaves [timers] and [timerIntervals]
    empty, cancels every interval it tracks, schedules none and resolves
    with the number of timers; an interval that is scheduled but no longer
    tracked is out of its reach.  On an empty registry either one resolves
    with 0 and leaves the registry empty, the native watchdog is stopped
    afterwards if the platform is capable or it was stopped before, and the
    web state is unchanged when no interval is tracked. *)
Lemma endAllTimers_empties_the_registry
    (available : bool) (native : IOS.Plugin) (web : Web.LiveActivitiesWeb) :
  let r := IOS.endAllTimers available native in
  let w := Web.endAllTimers web in
  (isReject r.1.2 = false
   ∧ (available = true →
        IOS.activeTimers r.1.1 = ∅ ∧ IOS.timerMetadata r.1.1 = ∅
        ∧ IOS.expirationCheckTimer r.1.1 = false
        ∧ r.1.2
          = Resolve {["endedCount" := JSNumber (Z.of_nat (size (IOS.activeTimers native)))]})
   ∧ (available = false → r = (native, Resolve {["endedCount" := JSNumber 0]}, []))
   ∧ (IOS.activeTimers native = ∅ →
        r.1.2 = Resolve {["endedCount" := JSNumber 0]}
        ∧ IOS.activeTimers r.1.1 = ∅
        ∧ (available = true ∨ IOS.expirationCheckTimer native = false →
             IOS.expirationCheckTimer r.1.1 = false)))
  ∧ (isReject w.2 = false
     ∧ Web.timers w.1 = ∅ ∧ Web.timerIntervals w.1 = ∅
     ∧ w.2 = Resolve {["endedCount" := JSNumber (Z.of_nat (size (Web.timers web)))]}
     ∧ (∀ id handle, Web.timerIntervals web !! id = Some handle →
          Web.scheduled w.1 !! handle = None)
     ∧ (∀ handle options, Web.scheduled w.1 !! handle = Some options →
          Web.scheduled web !! handle = Some options)
     ∧ (Web.timers web = ∅ →
          w.2 = Resolve {["endedCount" := JSNumber 0]}
          ∧ (Web.timerIntervals web = ∅ → w.1 = web))).
Proof.
  simpl. split.
  - unfold IOS.endAllTimers. destruct available; simpl.
    + split; [done|]. split; [done|]. split; [done|].
      intros ->. by rewrite map_size_empty.
    + split; [done|]. split; [done|]. split; [done|].
      intros ->. split; [done|]. split; [done|]. by intros [|].
  - unfold Web.endAllTimers. simpl. split; [done|]. split; [done|]. split; [done|].
    split; [done|].
    destruct (foldr_clearInterval (map_to_list (Web.timerIntervals web)) (Web.scheduled web))
      as [Hclear Hkeep].
    split; [|split; [apply Hkeep|]].
    + intros id handle H. apply Hclear. apply list_elem_of_fmap.
      exists (id, handle). split; [done|]. by apply elem_of_map_to_list.
    + intros Ht. rewrite Ht, map_size_empty. split; [done|].
      intros Hi. destruct web as [t i sch n]. simpl in *. subst.
      by rewrite map_to_list_empty.
Qed.

(** C9, where the code departs from it.  On the web, start ["t1"] twice
    and end it: [timers] and [timerIntervals] are empty.  [endAllTimers] then
    resolves with 0 and leaves the plugin as it was, but the watchdog is not
    stopped: the interval of the first [startTimer], which the second one
    stopped tracking without cancelling, is still scheduled, and once
    ["t1"] is started again under a new handle it is this old interval that
    sends [timerExpired].  The same calls on a capable native platform leave
    the watchdog stopped, before [endAllTimers] and after it. *)
Theorem endAllTimers_leaves_a_leaked_interval_scheduled :
  (Web.timers Leak.emptied = ∅
   ∧ Web.timerIntervals Leak.emptied = ∅
   ∧ Web.endAllTimers Leak.emptied
     = (Leak.emptied, Resolve {["endedCount" := JSNumber 0]})
   ∧ Web.scheduled Leak.cleared = {[1 := Scenario.webStart]}
   ∧ Web.timerIntervals Leak.restarted = {["t1" := 3]}
   ∧ Web.tick 1000 1 Leak.restarted
     = (Web.setTimers
          {["t1" := Web.ActiveTimer.mk "t1" Web.cri "Fentanyl CRI" None None 1000 0 true 200 None]}
          Leak.restarted,
        [webExpiredEvent 1000 Scenario.webStart]))
  ∧ (IOS.activeTimers Leak.nativeEmptied = ∅
     ∧ IOS.expirationCheckTimer Leak.nativeEmptied = false
     ∧ IOS.endAllTimers true Leak.nativeEmptied
       = (Leak.nativeEmptied, Resolve {["endedCount" := JSNumber 0]}, [])).
Proof. vm_compute. repeat split. Qed.

(** ** Defaults of the expiration feedback (C10) *)

(** C10.  When a request that passes validation omits [hapticOnExpire], the
    metadata stored for its id has the flag set, and a watchdog tick at or
    after the end time asks for the haptic; likewise for [soundOnExpire] and
    the sound. *)
Theorem startTimer_feedback_defaults_to_on
    (request : IOS.RequestOutcome) (call : gmap string JSValue) (native : IOS.Plugin)
    (id title : string) (endTime : Z) :
  getString call "id" = Some id →
  getString call "title" = Some title →
  getDouble call "endTime" = Some endTime →
  let started := (IOS.startTimer true request call native).1.1 in
  (call !! "hapticOnExpire" = None →
     IOS.TimerMetadata.hapticOnExpire <$> IOS.timerMetadata started !! id = Some true
     ∧ ∀ now, endTime ≤ now →
         IOS.triggerHapticFeedback ∈ (IOS.checkForExpiredTimers true now started).2)
  ∧ (call !! "soundOnExpire" = None →
     IOS.TimerMetadata.soundOnExpire <$> IOS.timerMetadata started !! id = Some true
     ∧ ∀ now, endTime ≤ now →
         IOS.triggerExpirationSound ∈ (IOS.checkForExpiredTimers true now started).2).
Proof.
  intros Hid Htitle Hend. simpl.
  set (metadata :=
    IOS.TimerMetadata.mk endTime (default true (getBool call "hapticOnExpire"))
      (default true (getBool call "soundOnExpire")) false).
  assert (IOS.timerMetadata (IOS.startTimer true request call native).1.1 !! id
          = Some metadata) as Hstored.
  { unfold IOS.startTimer. simpl. rewrite Hid, Htitle, Hend.
    destruct request; simpl; unfold IOS.startExpirationCheckTimer; simpl;
      try destruct (IOS.expirationCheckTimer native); simpl; apply lookup_insert_eq. }
  assert (∀ now, endTime ≤ now → due now metadata = true) as Hdue.
  { intros now Hnow. unfold due. simpl. by apply Z.leb_le. }
  split; intros Hmissing; rewrite Hstored; simpl; unfold getBool; rewrite Hmissing; simpl;
    (split; [done|]); intros now Hnow;
    pose proof (fold_feedback true now (IOS.startTimer true request call native).1.1 _
                  id metadata Hstored (Hdue now Hnow)) as [Hh Hs].
  - apply Hh. subst metadata. simpl. unfold getBool. by rewrite Hmissing.
  - apply Hs. subst metadata. simpl. unfold getBool. by rewrite Hmissing.
Qed.

(** ** The theorems at the scenarios *)

Lemma expired_flag_sticks_witness :
  forallb (Web.keepsDeadline "t1") Scenario.webSteps = true
  ∧ IOS.flagged "t1" Scenario.expired = true
  ∧ Web.flagged "t1" Scenario.webExpired = true
  ∧ (IOS.flagged "t1" Scenario.expired = true →
       IOS.flagged "t1" (IOS.run true Scenario.nativeSteps Scenario.expired).1 = true
       ∧ IOS.expirations "t1" (IOS.run true Scenario.nativeSteps Scenario.expired).2 = 0%nat)
  ∧ (IOS.expirations "t1" (IOS.run true Scenario.nativeSteps Scenario.expired).2 ≤ 1)%nat
  ∧ (Web.flagged "t1" Scenario.webExpired = true →
       Web.flagged "t1" (Web.run Scenario.webSteps Scenario.webExpired).1 = true
       ∧ Web.expirations "t1" (Web.run Scenario.webSteps Scenario.webExpired).2 = 0%nat)
  ∧ (Web.expirations "t1" (Web.run Scenario.webSteps Scenario.webExpired).2 ≤ 1)%nat.
Proof.
  split; [reflexivity|]. split; [reflexivity|]. split; [reflexivity|].
  apply (expired_flag_sticks_unless_web_update_extends "t1" true
           Scenario.expired Scenario.nativeSteps Scenario.webExpired Scenario.webSteps).
  reflexivity.
Defined.

Lemma startTimer_rejects_witness :
  requiredFieldsTyped Scenario.start = true
  ∧ let result := (IOS.startTimer true (IOS.granted "A1") Scenario.start IOS.initial).1.2 in
    (true = true →
       (isReject result = true
        ↔ Scenario.start !! "id" = None ∨ Scenario.start !! "title" = None
          ∨ Scenario.start !! "endTime" = None))
    ∧ (true = false →
       ∃ payload description,
         result = Resolve payload
         ∧ payload !! "success" = Some (JSBool false)
         ∧ payload !! "error" = Some (JSString description))
    ∧ (isReject result = false →
       ∃ payload flag,
         result = Resolve payload ∧ payload !! "success" = Some (JSBool flag))
    ∧ (∀ description,
         true = true → isReject result = false → IOS.granted "A1" = IOS.refused description →
         ∃ payload,
           result = Resolve payload
           ∧ payload !! "success" = Some (JSBool false)
           ∧ payload !! "error" = Some (JSString description)).
Proof.
  split; [reflexivity|].
  apply (startTimer_rejects_exactly_missing_required_fields true (IOS.granted "A1")
           Scenario.start IOS.initial).
  reflexivity.
Defined.

Lemma startTimer_feedback_witness :
  getString Scenario.start "id" = Some "t1"
  ∧ getString Scenario.start "title" = Some "Fentanyl CRI"
  ∧ getDouble Scenario.start "endTime" = Some 5000
  ∧ (Scenario.start !! "hapticOnExpire" = None →
       IOS.TimerMetadata.hapticOnExpire <$> IOS.timerMetadata Scenario.started !! "t1"
         = Some true
       ∧ ∀ now, 5000 ≤ now →
           IOS.triggerHapticFeedback
             ∈ (IOS.checkForExpiredTimers true now Scenario.started).2)
  ∧ (Scenario.start !! "soundOnExpire" = None →
       IOS.TimerMetadata.soundOnExpire <$> IOS.timerMetadata Scenario.started !! "t1"
         = Some true
       ∧ ∀ now, 5000 ≤ now →
           IOS.triggerExpirationSound
             ∈ (IOS.checkForExpiredTimers true now Scenario.started).2).
Proof.
  split; [reflexivity|]. split; [reflexivity|]. split; [reflexivity|].
  apply (startTimer_feedback_defaults_to_on (IOS.granted "A1") Scenario.start IOS.initial
           "t1" "Fentanyl CRI" 5000); reflexivity.
Defined.

Lemma updateTimer_overwrites_witness :
  getString Scenario.extend "id" = Some "t1"
  ∧ (match IOS.activeTimers Scenario.started !! "t1" with
    | None =>
      IOS.updateTimer true Scenario.extend Scenario.started
      = (Scenario.started, Reject ("Timer not found: " +:+ "t1"), [])
    | Some activity =>
      ∃ activity',
        (IOS.updateTimer true Scenario.extend Scenario.started).1
        = (IOS.setActiveTimers (<["t1" := activity']> (IOS.activeTimers Scenario.started))
             Scenario.started,
           Resolve ∅)
        ∧ IOS.attributes activity' = IOS.attributes activity
        ∧ IOS.activityToken activity' = IOS.activityToken activity
        ∧ let old := IOS.state (IOS.content activity) in
          let new := IOS.state (IOS.content activity') in
          IOS.ContentState.title new
            = default (IOS.ContentState.title old) (getString Scenario.extend "title")
          ∧ IOS.ContentState.subtitle new
            = default (IOS.ContentState.subtitle old) (getString Scenario.extend "subtitle")
          ∧ IOS.ContentState.detail new
            = default (IOS.ContentState.detail old) (getString Scenario.extend "detail")
          ∧ IOS.ContentState.endTime new
            = default (IOS.ContentState.endTime old) (getDouble Scenario.extend "endTime")
          ∧ IOS.ContentState.customData new
            = default (IOS.ContentState.customData old)
                (getObject Scenario.extend "customData")
    end
    ∧ match
        Web.timers Scenario.webStarted !! Web.UpdateTimerOptions.id Scenario.webExtend
      with
      | None =>
        Web.updateTimer 2000 Scenario.webExtend Scenario.webStarted
        = (Scenario.webStarted,
           Reject ("Timer not found: " +:+ Web.UpdateTimerOptions.id Scenario.webExtend))
      | Some timer =>
        ∃ timer',
          Web.updateTimer 2000 Scenario.webExtend Scenario.webStarted
          = (Web.setTimers
               (<[Web.UpdateTimerOptions.id Scenario.webExtend := timer']>
                  (Web.timers Scenario.webStarted))
               Scenario.webStarted,
             Resolve ∅)
          ∧ Web.ActiveTimer.id timer' = Web.ActiveTimer.id timer
          ∧ Web.ActiveTimer.type timer' = Web.ActiveTimer.type timer
          ∧ Web.ActiveTimer.startedAt timer' = Web.ActiveTimer.startedAt timer
          ∧ Web.ActiveTimer.title timer'
            = default (Web.ActiveTimer.title timer)
                (Web.UpdateTimerOptions.title Scenario.webExtend)
          ∧ Web.ActiveTimer.subtitle timer'
            = from_option Some (Web.ActiveTimer.subtitle timer)
                (Web.UpdateTimerOptions.subtitle Scenario.webExtend)
          ∧ Web.ActiveTimer.detail timer'
            = from_option Some (Web.ActiveTimer.detail timer)
                (Web.UpdateTimerOptions.detail Scenario.webExtend)
          ∧ Web.ActiveTimer.endTime timer'
            = default (Web.ActiveTimer.endTime timer)
                (Web.UpdateTimerOptions.endTime Scenario.webExtend)
          ∧ Web.ActiveTimer.customData timer'
            = from_option Some (Web.ActiveTimer.customData timer)
                (Web.UpdateTimerOptions.customData Scenario.webExtend)
          ∧ match Web.UpdateTimerOptions.endTime Scenario.webExtend with
            | None =>
              Web.ActiveTimer.remainingSeconds timer' = Web.ActiveTimer.remainingSeconds timer
              ∧ Web.ActiveTimer.expired timer' = Web.ActiveTimer.expired timer
            | Some e =>
              Web.ActiveTimer.remainingSeconds timer' = Web.secondsUntil 2000 e
              ∧ Web.ActiveTimer.expired timer' = (Web.secondsUntil 2000 e <=? 0)
            end
      end).
Proof.
  split; [reflexivity|].
  apply (updateTimer_overwrites_supplied_fields Scenario.extend "t1" Scenario.started
           2000 Scenario.webExtend Scenario.webStarted).
  reflexivity.
Defined.

(** * More of the two plugins *)

(** ** One tick of the native watchdog *)

Section Tick.
Import IOS.
Variable available : bool.
Variable now : Z.

Lemma checkEntry_activeTimers id metadata acc j :
  activeTimers (checkEntry available now id metadata acc).1 !! j
  = if due now metadata && available && bool_decide (j = id)
    then Native.completed now <$> activeTimers acc.1 !! j
    else activeTimers acc.1 !! j.
Proof.
  destruct (due now metadata) eqn:Hdue; [|by rewrite checkEntry_idle].
  unfold due in Hdue. apply andb_true_iff in Hdue as [Hflag Hend].
  apply negb_true_iff in Hflag. unfold checkEntry. rewrite Hflag, Hend.
  destruct available; simpl; [|done].
  unfold updateActivityToComplete, getActivity. simpl.
  destruct (activeTimers acc.1 !! id) as [a|] eqn:Ha; simpl.
  - case_bool_decide as Hj; [subst j; by rewrite lookup_insert_eq, Ha|].
    by rewrite lookup_insert_ne.
  - case_bool_decide as Hj; [subst j; by rewrite Ha|done].
Qed.

Lemma checkEntry_expirationCheckTimer id metadata acc :
  expirationCheckTimer (checkEntry available now id metadata acc).1
  = expirationCheckTimer acc.1.
Proof.
  unfold checkEntry. destruct (TimerMetadata.hasExpired metadata); [done|].
  destruct (TimerMetadata.endTime metadata <=? now); [|done].
  destruct available; simpl; [|done].
  unfold updateActivityToComplete, getActivity. simpl.
  by destruct (activeTimers acc.1 !! id).
Qed.

Lemma fold_activeTimers self (m : gmap string TimerMetadata.t) j :
  activeTimers (map_fold (checkEntry available now) (self, []) m).1 !! j
  = match m !! j with
    | Some metadata =>
      if due now metadata && available
      then Native.completed now <$> activeTimers self !! j
      else activeTimers self !! j
    | None => activeTimers self !! j
    end.
Proof.
  revert m. apply (map_fold_weak_ind (λ r m, activeTimers r.1 !! j = _)).
  - by rewrite lookup_empty.
  - intros i metadata m r Hi IH. rewrite checkEntry_activeTimers, IH, lookup_insert.
    case_bool_decide as Hj.
    + subst j. rewrite decide_True by done. rewrite Hi. by rewrite andb_true_r.
    + rewrite decide_False by done. by rewrite andb_false_r.
Qed.

Lemma fold_expirationCheckTimer self (m : gmap string TimerMetadata.t) :
  expirationCheckTimer (map_fold (checkEntry available now) (self, []) m).1
  = expirationCheckTimer self.
Proof.
  revert m. apply (map_fold_weak_ind (λ r m, expirationCheckTimer r.1 = _)); [done|].
  intros i metadata m r _ IH. by rewrite checkEntry_expirationCheckTimer.
Qed.

Lemma fold_quiescent self (m : gmap string TimerMetadata.t) :
  (∀ id metadata, m !! id = Some metadata → due now metadata = false) →
  map_fold (checkEntry available now) (self, []) m = (self, []).
Proof.
  revert m. apply (map_fold_weak_ind (λ r m, _ → r = (self, []))); [done|].
  intros i metadata m r Hi IH Hidle.
  rewrite checkEntry_idle by (apply (Hidle i); apply lookup_insert_eq).
  apply IH. intros id x Hx. apply (Hidle id). rewrite lookup_insert_ne; [done|].
  intros ->. congruence.
Qed.

Lemma fold_feedback_inv self (m : gmap string TimerMetadata.t) :
  (triggerHapticFeedback ∈ (map_fold (checkEntry available now) (self, []) m).2 →
     ∃ id metadata, m !! id = Some metadata ∧ due now metadata = true
                    ∧ TimerMetadata.hapticOnExpire metadata = true)
  ∧ (triggerExpirationSound ∈ (map_fold (checkEntry available now) (self, []) m).2 →
     ∃ id metadata, m !! id = Some metadata ∧ due now metadata = true
                    ∧ TimerMetadata.soundOnExpire metadata = true).
Proof.
  revert m. apply (map_fold_weak_ind
    (λ (r : Plugin * list Effect) (m : gmap string TimerMetadata.t),
       (triggerHapticFeedback ∈ r.2 →
          ∃ id metadata, m !! id = Some metadata ∧ due now metadata = true
                         ∧ TimerMetadata.hapticOnExpire metadata = true)
       ∧ (triggerExpirationSound ∈ r.2 →
          ∃ id metadata, m !! id = Some metadata ∧ due now metadata = true
                         ∧ TimerMetadata.soundOnExpire metadata = true))).
  - split; intros H; inversion H.
  - intros i x m r Hi [IHh IHs].
    assert (∀ id metadata, m !! id = Some metadata → <[i:=x]> m !! id = Some metadata)
      as Hup.
    { intros id metadata H. rewrite lookup_insert_ne; [done|]. intros ->. congruence. }
    destruct (due now x) eqn:Hdue.
    + destruct (checkEntry_due available now i x r Hdue) as (refresh & Hr & _ & Hout).
      rewrite Hout. split; intros H; rewrite !elem_of_app in H.
      * destruct H as [H|[H|[H|[H|H]]]].
        -- destruct (IHh H) as (id & md & ? & ? & ?). exists id, md. auto.
        -- destruct (TimerMetadata.hapticOnExpire x) eqn:Hx; [|inversion H].
           exists i, x. by rewrite lookup_insert_eq.
        -- destruct (TimerMetadata.soundOnExpire x); [|inversion H].
           apply list_elem_of_singleton in H. discriminate.
        -- apply list_elem_of_singleton in H. discriminate.
        -- destruct Hr as [->|[c ->]]; [inversion H|].
           apply list_elem_of_singleton in H. discriminate.
      * destruct H as [H|[H|[H|[H|H]]]].
        -- destruct (IHs H) as (id & md & ? & ? & ?). exists id, md. auto.
        -- destruct (TimerMetadata.hapticOnExpire x); [|inversion H].
           apply list_elem_of_singleton in H. discriminate.
        -- destruct (TimerMetadata.soundOnExpire x) eqn:Hx; [|inversion H].
           exists i, x. by rewrite lookup_insert_eq.
        -- apply list_elem_of_singleton in H. discriminate.
        -- destruct Hr as [->|[c ->]]; [inversion H|].
           apply list_elem_of_singleton in H. discriminate.
    + rewrite checkEntry_idle by done. split; intros H.
      * destruct (IHh H) as (id & md & ? & ? & ?). exists id, md. auto.
      * destruct (IHs H) as (id & md & ? & ? & ?). exists id, md. auto.
Qed.
Lemma fold_notifications self (m : gmap string TimerMetadata.t) n :
  n ∈ notifications (map_fold (checkEntry available now) (self, []) m).2
  ↔ ∃ id metadata, m !! id = Some metadata ∧ due now metadata = true
                   ∧ n = expiredEvent now id.
Proof.
  revert m. apply (map_fold_weak_ind
    (λ (r : Plugin * list Effect) (m : gmap string TimerMetadata.t),
       n ∈ notifications r.2
       ↔ ∃ id metadata, m !! id = Some metadata ∧ due now metadata = true
                        ∧ n = expiredEvent now id)).
  - split; [intros H; inversion H|]. intros (id & md & H & _). by rewrite lookup_empty in H.
  - intros i x m r Hi IH. rewrite checkEntry_notifications, elem_of_app, IH. split.
    + intros [(id & md & Hm & Hdue & ->)|H].
      * exists id, md. split; [|done]. rewrite lookup_insert_ne; [done|]. intros ->. congruence.
      * destruct (due now x) eqn:Hx; [|inversion H].
        apply list_elem_of_singleton in H. exists i, x. by rewrite lookup_insert_eq.
    + intros (id & md & Hm & Hdue & ->). rewrite lookup_insert in Hm.
      case_decide as Hid.
      * injection Hm as ->. subst id. right. rewrite Hdue. by apply list_elem_of_singleton.
      * left. eauto.
Qed.

Lemma checkForExpiredTimers_activeTimers self j :
  activeTimers (checkForExpiredTimers available now self).1 !! j
  = match timerMetadata self !! j with
    | Some metadata =>
      if due now metadata && available
      then Native.completed now <$> activeTimers self !! j
      else activeTimers self !! j
    | None => activeTimers self !! j
    end.
Proof. apply fold_activeTimers. Qed.

Lemma checkForExpiredTimers_expirationCheckTimer self :
  expirationCheckTimer (checkForExpiredTimers available now self).1
  = expirationCheckTimer self.
Proof. apply fold_expirationCheckTimer. Qed.
End Tick.

Lemma expiredEvent_inj now id id' :
  expiredEvent now id = expiredEvent now id' → id = id'.
Proof.
  intros H. apply (f_equal (λ n, data n !! "id")) in H.
  change (Some (JSString id) = Some (JSString id')) in H. congruence.
Qed.

Lemma fold_notifications_NoDup available now self (m : gmap string IOS.TimerMetadata.t) :
  NoDup (IOS.notifications (map_fold (IOS.checkEntry available now) (self, []) m).2).
Proof.
  cut (NoDup (IOS.notifications (map_fold (IOS.checkEntry available now) (self, []) m).2)
       ∧ ∀ n, n ∈ IOS.notifications (map_fold (IOS.checkEntry available now) (self, []) m).2 →
              ∃ id, is_Some (m !! id) ∧ n = expiredEvent now id); [by intros [? _]|].
  revert m. apply (map_fold_weak_ind
    (λ (r : IOS.Plugin * list IOS.Effect) (m : gmap string IOS.TimerMetadata.t),
       NoDup (IOS.notifications r.2)
       ∧ ∀ n, n ∈ IOS.notifications r.2 →
              ∃ id, is_Some (m !! id) ∧ n = expiredEvent now id)).
  - split; [constructor|]. intros n H. inversion H.
  - intros i x m r Hi [Hnodup Hfrom]. rewrite checkEntry_notifications. split.
    + destruct (due now x); [|by rewrite app_nil_r].
      apply NoDup_app. split; [done|]. split; [|apply NoDup_singleton].
      intros n Hn ->%list_elem_of_singleton.
      destruct (Hfrom _ Hn) as (id & [md Hmd] & Heq).
      apply expiredEvent_inj in Heq. subst id. congruence.
    + intros n [Hn|Hn]%elem_of_app.
      * destruct (Hfrom n Hn) as (id & [md Hmd] & ->). exists id. split; [|done].
        rewrite lookup_insert_ne; [eauto|]. intros ->. congruence.
      * destruct (due now x); [|inversion Hn].
        apply list_elem_of_singleton in Hn. exists i. by rewrite lookup_insert_eq.
Qed.

Lemma fold_notifications_length available now self (m : gmap string IOS.TimerMetadata.t) :
  length (IOS.notifications (map_fold (IOS.checkEntry available now) (self, []) m).2)
  = size (filter (λ entry : string * IOS.TimerMetadata.t, due now entry.2 = true) m).
Proof.
  revert m. apply (map_fold_weak_ind
    (λ (r : IOS.Plugin * list IOS.Effect) (m : gmap string IOS.TimerMetadata.t),
       length (IOS.notifications r.2)
       = size (filter (λ entry : string * IOS.TimerMetadata.t, due now entry.2 = true) m))).
  - by rewrite map_filter_empty, map_size_empty.
  - intros i x m r Hi IH. rewrite checkEntry_notifications, length_app, IH.
    destruct (due now x) eqn:Hx.
    + rewrite map_filter_insert_True by done.
      rewrite map_size_insert_None; [simpl; lia|].
      apply map_lookup_filter_None_2. by left.
    + rewrite map_filter_insert_False by (simpl; congruence).
      rewrite delete_id by done. simpl. lia.
Qed.

(** X1.  A tick of the native watchdog sends one [timerExpired], stamped
    with the time of the tick, for every entry that is not flagged and whose
    end time has been reached, and no other event; it sends none of them
    twice, so that the events are as many as those entries and each id has
    one event if its entry is due and none otherwise. *)
Theorem watchdog_tick_events available now self :
  let sent := IOS.notifications (IOS.checkForExpiredTimers available now self).2 in
  (∀ n, n ∈ sent
        ↔ ∃ id metadata,
            IOS.timerMetadata self !! id = Some metadata
            ∧ due now metadata = true
            ∧ n = expiredEvent now id)
  ∧ NoDup sent
  ∧ length sent
    = size (filter (λ entry : string * IOS.TimerMetadata.t, due now entry.2 = true)
              (IOS.timerMetadata self))
  ∧ ∀ id,
      IOS.expirations id (IOS.checkForExpiredTimers available now self).2
      = match IOS.timerMetadata self !! id with
        | Some metadata => if due now metadata then 1%nat else 0%nat
        | None => 0%nat
        end.
Proof.
  cbv zeta. split; [intros n; apply fold_notifications|].
  split; [apply fold_notifications_NoDup|].
  split; [apply fold_notifications_length|].
  apply checkForExpiredTimers_expirations.
Qed.

(** X2.  A tick asks for the haptic exactly when some entry it expires has
    [hapticOnExpire] set, and for the sound exactly when some entry it
    expires has [soundOnExpire] set. *)
Theorem watchdog_feedback_exactly_when_flagged available now self :
  (IOS.triggerHapticFeedback ∈ (IOS.checkForExpiredTimers available now self).2
   ↔ ∃ id metadata,
       IOS.timerMetadata self !! id = Some metadata ∧ due now metadata = true
       ∧ IOS.TimerMetadata.hapticOnExpire metadata = true)
  ∧ (IOS.triggerExpirationSound ∈ (IOS.checkForExpiredTimers available now self).2
     ↔ ∃ id metadata,
         IOS.timerMetadata self !! id = Some metadata ∧ due now metadata = true
         ∧ IOS.TimerMetadata.soundOnExpire metadata = true).
Proof.
  unfold IOS.checkForExpiredTimers.
  destruct (fold_feedback_inv available now self (IOS.timerMetadata self)) as [Hh Hs].
  split; (split; [done|]); intros (id & md & Hm & Hdue & Hflag);
    by apply (fold_feedback available now self _ id md Hm Hdue).
Qed.

(** X3.  A second tick at the same clock reading changes nothing and sends
    nothing: what a tick has handled is not handled again. *)
Theorem watchdog_tick_is_idempotent available now self :
  IOS.checkForExpiredTimers available now (IOS.checkForExpiredTimers available now self).1
  = ((IOS.checkForExpiredTimers available now self).1, []).
Proof.
  unfold IOS.checkForExpiredTimers at 1. apply fold_quiescent.
  intros id metadata. rewrite checkForExpiredTimers_timerMetadata.
  destruct (IOS.timerMetadata self !! id) as [md|]; [|done]. simpl.
  intros [= <-]. destruct (due now md) eqn:Hdue; [done|]. by rewrite Hdue.
Qed.

(** X4.  A tick rewrites the content of exactly the registered activities it
    expires (on a capable platform), to the completed presentation; it
    registers and removes nothing and leaves the watchdog as it is. *)
Theorem watchdog_tick_completes_expired_activities available now self id :
  IOS.activeTimers (IOS.checkForExpiredTimers available now self).1 !! id
  = match IOS.timerMetadata self !! id with
    | Some metadata =>
      if due now metadata && available
      then Native.completed now <$> IOS.activeTimers self !! id
      else IOS.activeTimers self !! id
    | None => IOS.activeTimers self !! id
    end
  ∧ IOS.expirationCheckTimer (IOS.checkForExpiredTimers available now self).1
    = IOS.expirationCheckTimer self.
Proof.
  split; [apply fold_activeTimers|apply fold_expirationCheckTimer].
Qed.

(** X5.  Once a tick has expired a registered timer, [isTimerActive]
    answers false for it and the listing shows it expired with no time left,
    at the time of the tick and at every later time, and its title ends in
    [" - Complete"]. *)
Theorem expired_timer_reads_as_inactive
    (now now' : Z) (self : IOS.Plugin) (call : gmap string JSValue)
    (id : string) (metadata : IOS.TimerMetadata.t) (activity : IOS.Activity) :
  IOS.timerMetadata self !! id = Some metadata →
  due now metadata = true →
  IOS.activeTimers self !! id = Some activity →
  getString call "id" = Some id →
  now ≤ now' →
  let self' := (IOS.checkForExpiredTimers true now self).1 in
  IOS.isTimerActive true now' call self' = Resolve {["active" := JSBool false]}
  ∧ ∃ activity',
      IOS.activeTimers self' !! id = Some activity'
      ∧ IOS.describeTimer now' id activity' !! "expired" = Some (JSBool true)
      ∧ IOS.describeTimer now' id activity' !! "remainingSeconds" = Some (JSNumber 0)
      ∧ IOS.describeTimer now' id activity' !! "title"
        = Some (JSString
                  (IOS.ContentState.title (IOS.state (IOS.content activity))
                   +:+ " - Complete")).
Proof.
  intros Hm Hdue Ha Hid Hle. simpl.
  assert (IOS.activeTimers (IOS.checkForExpiredTimers true now self).1 !! id
          = Some (Native.completed now activity)) as Hdone.
  { unfold IOS.checkForExpiredTimers. rewrite fold_activeTimers, Hm, Hdue, Ha. done. }
  split.
  - unfold IOS.isTimerActive, IOS.getActivity. rewrite Hid, Hdone. simpl.
    destruct (0 <? now - now') eqn:H; [lia|done].
  - eexists. split; [done|]. unfold IOS.describeTimer. simpl.
    replace (Z.max 0 (now - now')) with 0 by lia. done.
Qed.

(** ** The native calls, one at a time *)

(** X6.  A [startTimer] that passes validation touches no other id, and
    re-arms its own: the metadata of the id is stored unflagged whatever was
    there before.  When [Activity.request] succeeds the activity is
    registered under the id (replacing an earlier one of that id) with the
    requested title and end time, and the watchdog runs; when it throws, the
    registered activities and the watchdog are as before. *)
Theorem startTimer_registers_only_its_id
    (request : IOS.RequestOutcome) (call : gmap string JSValue) (self : IOS.Plugin)
    (id title : string) (endTime : Z) :
  getString call "id" = Some id →
  getString call "title" = Some title →
  getDouble call "endTime" = Some endTime →
  let self' := (IOS.startTimer true request call self).1.1 in
  (∀ j, j ≠ id →
     IOS.activeTimers self' !! j = IOS.activeTimers self !! j
     ∧ IOS.timerMetadata self' !! j = IOS.timerMetadata self !! j)
  ∧ (IOS.TimerMetadata.endTime <$> IOS.timerMetadata self' !! id = Some endTime
     ∧ IOS.flagged id self' = false)
  ∧ match request with
    | IOS.granted token =>
      (∃ activity,
         IOS.activeTimers self' !! id = Some activity
         ∧ IOS.id (IOS.attributes activity) = id
         ∧ IOS.activityToken activity = token
         ∧ IOS.ContentState.title (IOS.state (IOS.content activity)) = title
         ∧ IOS.ContentState.endTime (IOS.state (IOS.content activity)) = endTime)
      ∧ IOS.expirationCheckTimer self' = true
    | IOS.refused _ =>
      IOS.activeTimers self' = IOS.activeTimers self
      ∧ IOS.expirationCheckTimer self' = IOS.expirationCheckTimer self
    end.
Proof.
  intros Hid Htitle Hend. unfold IOS.startTimer, IOS.flagged. simpl.
  rewrite Hid, Htitle, Hend.
  destruct request as [token|description]; simpl.
  - unfold IOS.startExpirationCheckTimer. simpl.
    destruct (IOS.expirationCheckTimer self) eqn:Hw; simpl;
      (split; [intros j Hj; by rewrite !lookup_insert_ne|]);
      rewrite !lookup_insert_eq; (split; [done|]); (split; [eauto 10|done]).
  - split; [intros j Hj; by rewrite lookup_insert_ne|].
    rewrite lookup_insert_eq. done.
Qed.

Lemma getActiveTimers_lists_registered now self entry :
  entry ∈ IOS.getActiveTimers true now self
  ↔ ∃ id activity,
      IOS.activeTimers self !! id = Some activity
      ∧ entry = IOS.describeTimer now id activity.
Proof.
  unfold IOS.getActiveTimers. simpl. rewrite list_elem_of_fmap. split.
  - intros [[id a] [-> Hin]]. apply elem_of_map_to_list in Hin. eauto.
  - intros (id & a & Ha & ->). exists (id, a). split; [done|].
    by apply elem_of_map_to_list.
Qed.

(** X7.  When [Activity.request] throws, [startTimer] resolves with
    [success: false] and registers no activity, yet the metadata it stored
    stays behind: the first tick at or after the end time sends
    [timerExpired] for the id, which no listing shows before or after. *)
Theorem failed_start_still_expires
    (description : string) (call : gmap string JSValue) (self : IOS.Plugin)
    (id title : string) (endTime : Z) :
  getString call "id" = Some id →
  getString call "title" = Some title →
  getDouble call "endTime" = Some endTime →
  IOS.activeTimers self !! id = None →
  let r := IOS.startTimer true (IOS.refused description) call self in
  (∃ payload, r.1.2 = Resolve payload ∧ payload !! "success" = Some (JSBool false))
  ∧ ∀ now, endTime ≤ now →
      IOS.expirations id (IOS.checkForExpiredTimers true now r.1.1).2 = 1%nat
      ∧ ∀ now' entry,
          entry ∈ IOS.getActiveTimers true now' r.1.1
          ∨ entry
            ∈ IOS.getActiveTimers true now' (IOS.checkForExpiredTimers true now r.1.1).1 →
          entry !! "id" ≠ Some (JSString id).
Proof.
  intros Hid Htitle Hend Habsent.
  assert (IOS.startTimer true (IOS.refused description) call self
          = (IOS.setTimerMetadata
               (<[id := IOS.TimerMetadata.mk endTime
                          (default true (getBool call "hapticOnExpire"))
                          (default true (getBool call "soundOnExpire")) false]>
                  (IOS.timerMetadata self)) self,
             Resolve (list_to_map
               [("success", JSBool false); ("id", JSString id);
                ("error", JSString description)]),
             [])) as ->.
  { unfold IOS.startTimer. simpl. by rewrite Hid, Htitle, Hend. }
  simpl. split; [eauto|]. intros now Hnow. split.
  - rewrite checkForExpiredTimers_expirations. simpl. rewrite lookup_insert_eq.
    unfold due. simpl. by destruct (endTime <=? now) eqn:H; [|lia].
  - intros now' entry H.
    assert (∃ j activity, j ≠ id ∧ entry = IOS.describeTimer now' j activity)
      as (j & a & Hj & ->).
    { destruct H as [H|H]; apply getActiveTimers_lists_registered in H
        as (j & a & Ha & ->); exists j, a; (split; [|done]); intros ->.
      - simpl in Ha. congruence.
      - unfold IOS.checkForExpiredTimers in Ha. rewrite fold_activeTimers in Ha.
        simpl in Ha. rewrite Habsent, lookup_insert_eq in Ha.
        by destruct (due now _ && true). }
    unfold IOS.describeTimer. simpl. rewrite lookup_insert_eq. congruence.
Qed.

(** X8.  [isTimerActive] never rejects a call that names an id.  For a
    registered id it answers true exactly while the clock is before the end
    time, which is exactly when the listing at the same clock reading shows
    the timer as not expired; for an id that is not registered it answers
    false. *)
Theorem isTimerActive_agrees_with_listing
    (now : Z) (call : gmap string JSValue) (self : IOS.Plugin) (id : string) :
  getString call "id" = Some id →
  match IOS.activeTimers self !! id with
  | Some activity =>
    ∃ active,
      IOS.isTimerActive true now call self = Resolve {["active" := JSBool active]}
      ∧ (active = true
         ↔ now < IOS.ContentState.endTime (IOS.state (IOS.content activity)))
      ∧ IOS.describeTimer now id activity !! "expired" = Some (JSBool (negb active))
  | None => IOS.isTimerActive true now call self = Resolve {["active" := JSBool false]}
  end.
Proof.
  intros Hid. unfold IOS.isTimerActive, IOS.getActivity. rewrite Hid.
  destruct (IOS.activeTimers self !! id) as [a|]; [|done].
  set (e := IOS.ContentState.endTime (IOS.state (IOS.content a))).
  exists (0 <? e - now). split; [done|]. split.
  - rewrite Z.ltb_lt. lia.
  - unfold IOS.describeTimer. fold e. simpl. do 2 f_equal.
    destruct (0 <? e - now) eqn:H1, (Z.max 0 (e - now) <=? 0) eqn:H2; simpl; lia || done.
Qed.

(** X9.  [endTimer] on a registered id resolves, removes that id and no
    other from both dictionaries, sends one [timerDismissed] for it, and
    stops the watchdog exactly when no activity is left.  A second
    [endTimer] for the same id rejects with not-found and changes nothing. *)
Theorem endTimer_removes_only_its_id
    (now now' : Z) (call : gmap string JSValue) (self : IOS.Plugin)
    (id : string) (activity : IOS.Activity) :
  getString call "id" = Some id →
  IOS.activeTimers self !! id = Some activity →
  let r := IOS.endTimer true now call self in
  r.1.2 = Resolve ∅
  ∧ IOS.activeTimers r.1.1 = delete id (IOS.activeTimers self)
  ∧ IOS.timerMetadata r.1.1 = delete id (IOS.timerMetadata self)
  ∧ IOS.expirationCheckTimer r.1.1
    = (if decide (delete id (IOS.activeTimers self) = ∅) then false
       else IOS.expirationCheckTimer self)
  ∧ IOS.notifications r.2
    = [mkNotification "timerDismissed" (list_to_map
         [("id", JSString id); ("eventType", JSString "dismissed");
          ("timestamp", JSNumber now)])]
  ∧ IOS.endTimer true now' call r.1.1
    = (r.1.1, Reject ("Timer not found: " +:+ id), []).
Proof.
  intros Hid Ha.
  assert (∃ out, IOS.endTimer true now call self
            = (IOS.stopIfEmpty
                 (IOS.setTimerMetadata (delete id (IOS.timerMetadata self))
                    (IOS.setActiveTimers (delete id (IOS.activeTimers self)) self)),
               Resolve ∅, out)
            ∧ IOS.notifications out
              = [mkNotification "timerDismissed" (list_to_map
                   [("id", JSString id); ("eventType", JSString "dismissed");
                    ("timestamp", JSNumber now)])]) as (out & -> & Hout).
  { unfold IOS.endTimer, IOS.getActivity. simpl. rewrite Hid, Ha. eauto. }
  simpl. unfold IOS.stopIfEmpty. simpl.
  assert (∀ p, IOS.activeTimers p = delete id (IOS.activeTimers self) →
               IOS.endTimer true now' call p = (p, Reject ("Timer not found: " +:+ id), []))
    as Hagain.
  { intros p Hp. unfold IOS.endTimer, IOS.getActivity. simpl.
    by rewrite Hid, Hp, lookup_delete_eq. }
  destruct (decide (delete id (IOS.activeTimers self) = ∅)); simpl;
    repeat split; try done; by apply Hagain.
Qed.

(** X10.  What [endTimer] hands to the activity when it ends it.  The final
    content keeps the subtitle and the custom data and has no stale date;
    with a [finalMessage] its title is the message, its detail is empty and
    its end time is the clock, without one it is the current state.  The
    dismissal policy is immediate for ["immediate"], a date
    [dismissAfterSeconds] (0 when left out) past the clock for ["after"], and
    the default for any other string and when left out. *)
Theorem endTimer_final_snapshot
    (now : Z) (call : gmap string JSValue) (self : IOS.Plugin)
    (id : string) (activity : IOS.Activity) :
  getString call "id" = Some id →
  IOS.activeTimers self !! id = Some activity →
  let current := IOS.state (IOS.content activity) in
  ∃ final policy rest,
    (IOS.endTimer true now call self).2
    = IOS.activityEnd id (Some (IOS.mkContent final None)) policy :: rest
    ∧ IOS.ContentState.subtitle final = IOS.ContentState.subtitle current
    ∧ IOS.ContentState.customData final = IOS.ContentState.customData current
    ∧ match getString call "finalMessage" with
      | Some message =>
        IOS.ContentState.title final = message
        ∧ IOS.ContentState.detail final = ""
        ∧ IOS.ContentState.endTime final = now
      | None => final = current
      end
    ∧ match getString call "dismissalPolicy" with
      | Some policyName =>
        if decide (policyName = "immediate") then policy = IOS.immediate
        else if decide (policyName = "after") then
          policy
          = IOS.after (now + default 0 (getDouble call "dismissAfterSeconds") * 1000)
        else policy = IOS.default_policy
      | None => policy = IOS.default_policy
      end.
Proof.
  intros Hid Ha. unfold IOS.endTimer, IOS.getActivity. simpl. rewrite Hid, Ha. simpl.
  eexists _, _, _. split; [reflexivity|].
  destruct (getString call "finalMessage") as [message|]; simpl;
    (split; [done|]); (split; [done|]); (split; [done|]);
    destruct (getString call "dismissalPolicy") as [p|]; simpl; try done;
    repeat case_decide; done.
Qed.

(** X11.  [handleActivityStateChange] sends an event, a [timerExpired], for
    [.ended] only; it removes the id from both dictionaries for [.ended] and
    [.dismissed] and changes neither dictionary for any other state; it
    never touches another id; and it leaves the watchdog stopped whenever no
    activity is left. *)
Theorem state_change_touches_one_id
    (now : Z) (id : string) (s : IOS.ActivityState) (self : IOS.Plugin) :
  let r := IOS.handleActivityStateChange now id s self in
  IOS.notifications r.2
    = (if s is IOS.ended then [expiredEvent now id] else [])
  ∧ (∀ j, j ≠ id →
       IOS.activeTimers r.1 !! j = IOS.activeTimers self !! j
       ∧ IOS.timerMetadata r.1 !! j = IOS.timerMetadata self !! j)
  ∧ match s with
    | IOS.ended | IOS.dismissed =>
      IOS.activeTimers r.1 !! id = None ∧ IOS.timerMetadata r.1 !! id = None
    | _ =>
      IOS.activeTimers r.1 = IOS.activeTimers self
      ∧ IOS.timerMetadata r.1 = IOS.timerMetadata self
    end
  ∧ (IOS.activeTimers r.1 = ∅ → IOS.expirationCheckTimer r.1 = false).
Proof.
  unfold IOS.handleActivityStateChange, IOS.stopIfEmpty.
  destruct s; simpl; case_decide as Hempty; simpl;
    (split; [done|]);
    (split; [intros j Hj; by rewrite ?lookup_delete_ne|]);
    rewrite ?lookup_delete_eq; done.
Qed.

(** ** The shape the native plugin keeps *)

Section NativeShape.
Import IOS.
Variable available : bool.

Lemma startTimer_wellFormed request call self :
  Native.wellFormed self → Native.wellFormed (startTimer available request call self).1.1.
Proof.
  intros [Hw Hreg]. unfold startTimer.
  destruct available; simpl; [|done].
  destruct (getString call "id") as [id|]; [|done].
  destruct (getString call "title") as [title|]; [|done].
  destruct (getDouble call "endTime") as [endTime|]; [|done].
  destruct request as [token|description]; simpl.
  - split.
    + unfold startExpirationCheckTimer. simpl.
      destruct (expirationCheckTimer self) eqn:Hflag; simpl;
        (split; [intros _; apply insert_non_empty|done]).
    + unfold startExpirationCheckTimer. simpl.
      assert (∀ j a, <[id:=mkActivity (mkAttributes id
                 (default "generic" (getString call "type"))
                 (default (iconForType (default "generic" (getString call "type")))
                    (getString call "icon"))
                 (default (colorForType (default "generic" (getString call "type")))
                    (getString call "accentColor")))
               (mkContent (ContentState.mk title (default "" (getString call "subtitle"))
                    (default "" (getString call "detail")) endTime
                    (default ∅ (getObject call "customData")))
                  (Some (endTime + 60000))) token]> (activeTimers self) !! j = Some a →
              IOS.id (attributes a) = j
              ∧ is_Some (<[id:=TimerMetadata.mk endTime
                                 (default true (getBool call "hapticOnExpire"))
                                 (default true (getBool call "soundOnExpire")) false]>
                           (timerMetadata self) !! j)) as Hnew.
      { intros j a. rewrite !lookup_insert. case_decide as Hj.
        - intros [= <-]. by subst j.
        - apply Hreg. }
      destruct (expirationCheckTimer self); simpl; apply Hnew.
  - split; [done|]. intros j a Ha. destruct (Hreg j a Ha) as [Hj Hm]. split; [done|].
    simpl. rewrite lookup_insert. by case_decide.
Qed.

Lemma updateTimer_wellFormed call self :
  Native.wellFormed self → Native.wellFormed (updateTimer available call self).1.1.
Proof.
  intros [Hw Hreg]. unfold updateTimer, getActivity.
  destruct available; simpl; [|done].
  destruct (getString call "id") as [id|]; [|done].
  destruct (activeTimers self !! id) as [a|] eqn:Ha; [|done]. simpl. split.
  - split; [intros _; apply insert_non_empty|].
    intros _. apply Hw. intros Hempty. by rewrite Hempty, lookup_empty in Ha.
  - intros j a'. simpl. rewrite lookup_insert. case_decide as Hj.
    + intros [= <-]. subst j. simpl. apply (Hreg id a Ha).
    + apply Hreg.
Qed.

Lemma removal_wellFormed id self :
  Native.wellFormed self →
  Native.wellFormed
    (stopIfEmpty (setTimerMetadata (delete id (timerMetadata self))
                    (setActiveTimers (delete id (activeTimers self)) self))).
Proof.
  intros [Hw Hreg]. unfold stopIfEmpty. simpl. case_decide as Hempty; split; simpl.
  - by rewrite Hempty.
  - intros j a. by rewrite Hempty, lookup_empty.
  - split; [done|]. intros _. apply Hw. intros H. apply Hempty. by rewrite H, delete_empty.
  - intros j a. rewrite lookup_delete. case_decide as Hj; [done|].
    intros Ha. destruct (Hreg j a Ha) as [? ?]. split; [done|].
    by rewrite lookup_delete_ne.
Qed.

Lemma endTimer_wellFormed now call self :
  Native.wellFormed self → Native.wellFormed (endTimer available now call self).1.1.
Proof.
  intros Hwf. unfold endTimer, getActivity.
  destruct available; simpl; [|done].
  destruct (getString call "id") as [id|]; [|done].
  destruct (activeTimers self !! id) as [a|]; [|done]. simpl.
  by apply removal_wellFormed.
Qed.

Lemma endAllTimers_wellFormed self :
  Native.wellFormed self → Native.wellFormed (endAllTimers available self).1.1.
Proof.
  intros Hwf. unfold endAllTimers. destruct available; simpl; [|done].
  split; simpl; [done|]. intros j a. by rewrite lookup_empty.
Qed.

Lemma handleActivityStateChange_wellFormed now id s self :
  Native.wellFormed self → Native.wellFormed (handleActivityStateChange now id s self).1.
Proof.
  intros Hwf. unfold handleActivityStateChange.
  destruct s; simpl; try by apply removal_wellFormed.
  all: destruct Hwf as [Hw Hreg]; unfold stopIfEmpty; case_decide as Hempty;
    (split; [|done]); simpl; [by rewrite Hempty|done..].
Qed.

Lemma checkForExpiredTimers_wellFormed now self :
  Native.wellFormed self → Native.wellFormed (checkForExpiredTimers available now self).1.
Proof.
  intros [Hw Hreg].
  assert (∀ j, is_Some (activeTimers (checkForExpiredTimers available now self).1 !! j)
               ↔ is_Some (activeTimers self !! j)) as Hsame.
  { intros j. rewrite checkForExpiredTimers_activeTimers.
    destruct (timerMetadata self !! j) as [md|]; [|done].
    destruct (due now md && available); [|done]. by rewrite fmap_is_Some. }
  assert (activeTimers (checkForExpiredTimers available now self).1 ≠ ∅
          ↔ activeTimers self ≠ ∅) as Hne.
  { split; intros (j & x & Hx)%map_choose Hempty.
    - destruct (proj1 (Hsame j)) as [y Hy]; [eauto|]. by rewrite Hempty, lookup_empty in Hy.
    - destruct (proj2 (Hsame j)) as [y Hy]; [eauto|]. by rewrite Hempty, lookup_empty in Hy. }
  split.
  - by rewrite checkForExpiredTimers_expirationCheckTimer, Hne.
  - intros j a Ha. rewrite checkForExpiredTimers_timerMetadata, fmap_is_Some.
    rewrite checkForExpiredTimers_activeTimers in Ha.
    assert (∃ a0, activeTimers self !! j = Some a0 ∧ attributes a = attributes a0)
      as (a0 & Ha0 & ->).
    { destruct (timerMetadata self !! j) as [md|]; [|eauto].
      destruct (due now md && available); [|eauto].
      destruct (activeTimers self !! j) as [a0|]; [|done].
      injection Ha as <-. eauto. }
    apply (Hreg j a0 Ha0).
Qed.

Lemma perform_wellFormed a self :
  Native.wellFormed self → Native.wellFormed (Native.perform available a self).1.
Proof.
  destruct a; simpl.
  - apply startTimer_wellFormed.
  - apply updateTimer_wellFormed.
  - apply endTimer_wellFormed.
  - apply endAllTimers_wellFormed.
  - apply handleActivityStateChange_wellFormed.
  - apply checkForExpiredTimers_wellFormed.
Qed.

Lemma after_wellFormed actions self :
  Native.wellFormed self → Native.wellFormed (Native.after available actions self).
Proof.
  revert self. induction actions as [|a actions IH]; intros self Hwf; [done|].
  simpl. apply IH. by apply perform_wellFormed.
Qed.
End NativeShape.

(** On a native plugin reached from a fresh one, [endAllTimers] on an empty
    registry resolves with 0, ends no activity, leaves the registry empty
    and leaves the watchdog stopped, as it was before the call. *)
Lemma endAllTimers_on_an_empty_native_registry
    (available : bool) (actions : list Native.Action) :
  let self := Native.after available actions IOS.initial in
  IOS.activeTimers self = ∅ →
  let r := IOS.endAllTimers available self in
  r.1.2 = Resolve {["endedCount" := JSNumber 0]}
  ∧ r.2 = []
  ∧ IOS.activeTimers r.1.1 = ∅
  ∧ IOS.expirationCheckTimer self = false
  ∧ IOS.expirationCheckTimer r.1.1 = false.
Proof.
  intros self Hempty.
  assert (Native.wellFormed IOS.initial) as Hinitial.
  { split; simpl; [done|]. intros id a. by rewrite lookup_empty. }
  destruct (after_wellFormed available actions IOS.initial Hinitial) as [Hwatch _].
  fold self in Hwatch.
  assert (IOS.expirationCheckTimer self = false) as Hstopped.
  { destruct (IOS.expirationCheckTimer self); [|done].
    destruct Hwatch as [Hne _]. by destruct Hne. }
  cbv zeta. unfold IOS.endAllTimers. rewrite Hempty.
  destruct available; simpl; rewrite ?map_to_list_empty, ?map_size_empty; done.
Qed.

(** X12.  After any sequence of calls, state changes and ticks on a fresh
    native plugin, the watchdog is scheduled exactly while an activity is
    registered, and every registered activity carries the id it is
    registered under and has an entry in [timerMetadata] for the watchdog to
    read. *)
Theorem watchdog_runs_exactly_while_registered
    (available : bool) (actions : list Native.Action) :
  let self := Native.after available actions IOS.initial in
  (IOS.expirationCheckTimer self = true ↔ IOS.activeTimers self ≠ ∅)
  ∧ ∀ id activity,
      IOS.activeTimers self !! id = Some activity →
      IOS.id (IOS.attributes activity) = id ∧ is_Some (IOS.timerMetadata self !! id).
Proof.
  apply (after_wellFormed available actions IOS.initial). split; simpl; [done|].
  intros id a. by rewrite lookup_empty.
Qed.

(** X13.  On a platform without the capability nothing is ever registered:
    whatever is called, the plugin stays as it was created. *)
Theorem nothing_registers_without_the_capability (actions : list Native.Action) :
  Native.after false actions IOS.initial = IOS.initial.
Proof.
  induction actions as [|a actions IH]; [done|]. simpl.
  assert ((Native.perform false a IOS.initial).1 = IOS.initial) as ->; [|done].
  destruct a as [request call|call|now call|  |now id s|now]; try done.
  - unfold Native.perform, IOS.handleActivityStateChange, IOS.stopIfEmpty, IOS.initial.
    destruct s; simpl; by rewrite ?delete_empty.
Qed.

(** ** The shape the web plugin keeps *)

Lemma foldr_clearInterval_other
    (handles : list (string * Z)) (scheduled : gmap Z Web.StartTimerOptions.t) h :
  h ∉ handles.*2 →
  foldr (λ e : string * Z, delete e.2) scheduled handles !! h = scheduled !! h.
Proof.
  induction handles as [|[id h0] handles IH]; simpl; [done|].
  rewrite not_elem_of_cons. intros [Hne Hrest].
  rewrite lookup_delete_ne by done. by apply IH.
Qed.

Section WebShape.
Import Web.

Lemma web_startTimer_wellFormed now options self :
  Browser.wellFormed self → Browser.wellFormed (startTimer now options self).1.
Proof.
  intros (Hkeys & Htracked & Hids & Hbound & Hnext). unfold startTimer. simpl.
  split; [|split; [|split; [|split]]]; simpl; [| | | |lia].
  - intros id. rewrite !lookup_insert. case_decide; [by split; eauto|apply Hkeys].
  - intros id h. rewrite lookup_insert. case_decide as Hid.
    + intros [= <-]. exists options. by rewrite lookup_insert_eq.
    + intros Hh. destruct (Htracked id h Hh) as (o & Ho & Ho').
      exists o. split; [|done]. rewrite lookup_insert_ne; [done|].
      intros <-. specialize (Hbound _ _ Ho). lia.
  - intros id t. rewrite lookup_insert. case_decide as Hid; [|apply Hids].
    by intros [= <-].
  - intros h o. rewrite lookup_insert. case_decide as Hh.
    + intros _. subst h. lia.
    + intros Ho. specialize (Hbound _ _ Ho). lia.
Qed.

Lemma web_updateTimer_wellFormed now options self :
  Browser.wellFormed self → Browser.wellFormed (updateTimer now options self).1.
Proof.
  intros (Hkeys & Htracked & Hids & Hbound & Hnext). unfold updateTimer.
  destruct (timers self !! UpdateTimerOptions.id options) as [t|] eqn:Ht; [|done].
  simpl. split; [|split; [|split; [|split]]]; simpl; try done.
  - intros id. rewrite lookup_insert. case_decide as Hid; [|apply Hkeys].
    subst id. rewrite <- Hkeys, Ht. by split; eauto.
  - intros id t'. rewrite lookup_insert. case_decide as Hid; [|apply Hids].
    intros [= <-]. subst id. unfold applyUpdate. simpl.
    destruct (UpdateTimerOptions.endTime options); simpl; by apply Hids.
Qed.

Lemma web_endTimer_wellFormed now options self :
  Browser.wellFormed self → Browser.wellFormed (endTimer now options self).1.1.
Proof.
  intros (Hkeys & Htracked & Hids & Hbound & Hnext). unfold endTimer.
  set (id := EndTimerOptions.id options).
  destruct (timerIntervals self !! id) as [h|] eqn:Hh.
  - destruct (Htracked id h Hh) as (o & Ho & Ho').
    destruct (decide (h = 0)) as [->|Hh0]; [specialize (Hbound _ _ Ho); lia|].
    simpl. split; [|split; [|split; [|split]]]; simpl; try done.
    + intros j. rewrite !lookup_delete. case_decide; [by split; intros [? ?]|apply Hkeys].
    + intros j h'. rewrite lookup_delete. case_decide as Hj; [done|].
      intros Hh'. destruct (Htracked j h' Hh') as (o' & Ho1 & Ho2).
      exists o'. split; [|done]. rewrite lookup_delete_ne; [done|].
      intros <-. congruence.
    + intros j t. rewrite lookup_delete. case_decide; [done|apply Hids].
    + intros h' o'. rewrite lookup_delete. case_decide; [done|apply Hbound].
  - simpl. split; [|split; [|split; [|split]]]; simpl; try done.
    + intros j. rewrite lookup_delete. case_decide as Hj; [|apply Hkeys].
      subst j. rewrite Hh. by split; intros [? ?].
    + intros j t. rewrite lookup_delete. case_decide; [done|apply Hids].
Qed.

Lemma web_endAllTimers_wellFormed self :
  Browser.wellFormed self → Browser.wellFormed (endAllTimers self).1.
Proof.
  intros (Hkeys & Htracked & Hids & Hbound & Hnext). unfold endAllTimers. simpl.
  split; [|split; [|split; [|split]]]; simpl; [| | | |done].
  - intros id. rewrite !lookup_empty. by split; intros [? ?].
  - intros id h. by rewrite lookup_empty.
  - intros id t. by rewrite lookup_empty.
  - intros h o Ho. apply (Hbound h o).
    by apply (foldr_clearInterval (map_to_list (timerIntervals self)) (scheduled self)).
Qed.

Lemma web_getActiveTimers_wellFormed now self :
  Browser.wellFormed self → Browser.wellFormed (getActiveTimers now self).1.
Proof.
  intros (Hkeys & Htracked & Hids & Hbound & Hnext). unfold getActiveTimers. simpl.
  split; [|split; [|split; [|split]]]; simpl; try done.
  - intros id. rewrite lookup_fmap, fmap_is_Some. apply Hkeys.
  - intros id t. rewrite lookup_fmap.
    destruct (timers self !! id) as [t0|] eqn:Ht; [|done].
    intros [= <-]. simpl. by apply Hids.
Qed.

Lemma web_tick_wellFormed now handle self :
  Browser.wellFormed self → Browser.wellFormed (tick now handle self).1.
Proof.
  intros (Hkeys & Htracked & Hids & Hbound & Hnext). unfold tick.
  destruct (scheduled self !! handle) as [o|]; [|done].
  assert (timerIntervals (intervalCallback now o self).1 = timerIntervals self
          ∧ scheduled (intervalCallback now o self).1 = scheduled self
          ∧ nextHandle (intervalCallback now o self).1 = nextHandle self)
    as (Hi & Hs & Hn).
  { unfold intervalCallback. by destruct (timers self !! StartTimerOptions.id o). }
  split; [|split; [|split; [|split]]]; rewrite ?Hi, ?Hs, ?Hn; try done.
  - intros id. rewrite intervalCallback_timers.
    case_decide; [rewrite fmap_is_Some|]; apply Hkeys.
  - intros id t. rewrite intervalCallback_timers. case_decide; [|apply Hids].
    destruct (timers self !! id) as [t0|] eqn:Ht; [|done].
    intros [= <-]. simpl. by apply Hids.
Qed.

Lemma web_perform_wellFormed a self :
  Browser.wellFormed self → Browser.wellFormed (Browser.perform a self).
Proof.
  destruct a; simpl.
  - apply web_startTimer_wellFormed.
  - apply web_updateTimer_wellFormed.
  - apply web_endTimer_wellFormed.
  - apply web_endAllTimers_wellFormed.
  - apply web_getActiveTimers_wellFormed.
  - apply web_tick_wellFormed.
Qed.

Lemma web_after_wellFormed actions self :
  Browser.wellFormed self → Browser.wellFormed (Browser.after actions self).
Proof.
  revert self. induction actions as [|a actions IH]; intros self Hwf; [done|].
  simpl. apply IH. by apply web_perform_wellFormed.
Qed.

Lemma web_initial_wellFormed : Browser.wellFormed initial.
Proof.
  unfold Browser.wellFormed, initial. simpl.
  split; [|split; [|split; [|split]]]; try done.
  intros id. rewrite !lookup_empty. by split; intros [? ?].
Qed.
End WebShape.

(** X14.  After any sequence of calls and interval callbacks on a fresh web
    plugin, a timer is stored exactly when an interval is tracked for its
    id, that interval is scheduled with a callback that watches this id, and
    the stored timer carries the id it is stored under. *)
Theorem every_stored_timer_is_watched (actions : list Browser.Action) :
  let self := Browser.after actions Web.initial in
  (∀ id, is_Some (Web.timers self !! id) ↔ is_Some (Web.timerIntervals self !! id))
  ∧ (∀ id handle,
       Web.timerIntervals self !! id = Some handle →
       ∃ options, Web.scheduled self !! handle = Some options
                  ∧ Web.StartTimerOptions.id options = id)
  ∧ (∀ id timer, Web.timers self !! id = Some timer → Web.ActiveTimer.id timer = id).
Proof.
  destruct (web_after_wellFormed actions Web.initial web_initial_wellFormed)
    as (Hkeys & Htracked & Hids & _). auto.
Qed.

(** ** The web calls and callbacks, one at a time *)

Lemma secondsUntil_le_0 now endTime :
  Web.secondsUntil now endTime ≤ 0 ↔ endTime - now < 1000.
Proof.
  unfold Web.secondsUntil.
  pose proof (Z.div_mod (endTime - now) 1000).
  pose proof (Z.mod_pos_bound (endTime - now) 1000). lia.
Qed.

(** X15.  The callback of a stored, unflagged timer sends [timerExpired]
    and sets the flag as soon as less than one whole second is left, that
    is, up to a second before the end time, and does neither while a whole
    second is left. *)
Theorem web_callback_fires_in_the_last_second
    (now handle : Z) (self : Web.LiveActivitiesWeb)
    (options : Web.StartTimerOptions.t) (timer : Web.ActiveTimer.t) :
  Web.scheduled self !! handle = Some options →
  Web.timers self !! Web.StartTimerOptions.id options = Some timer →
  Web.ActiveTimer.expired timer = false →
  (Web.tick now handle self).2
    = (if decide (Web.ActiveTimer.endTime timer - now < 1000)
       then [webExpiredEvent now options] else [])
  ∧ Web.flagged (Web.StartTimerOptions.id options) (Web.tick now handle self).1
    = bool_decide (Web.ActiveTimer.endTime timer - now < 1000).
Proof.
  intros Hh Ht Hfresh. unfold Web.tick, Web.flagged. rewrite Hh.
  rewrite intervalCallback_events, intervalCallback_timers.
  destruct (decide (Web.StartTimerOptions.id options = Web.StartTimerOptions.id options))
    as [_|?]; [|done].
  unfold callbackFires. rewrite Ht, Hfresh. simpl. rewrite andb_true_r.
  pose proof (secondsUntil_le_0 now (Web.ActiveTimer.endTime timer)) as Hlast.
  destruct (Web.secondsUntil now (Web.ActiveTimer.endTime timer) <=? 0) eqn:Hle.
  - apply Z.leb_le in Hle. apply Hlast in Hle.
    by rewrite decide_True, bool_decide_eq_true_2.
  - apply Z.leb_gt in Hle.
    assert (¬ Web.ActiveTimer.endTime timer - now < 1000) as Hnot by (rewrite <- Hlast; lia).
    by rewrite decide_False, bool_decide_eq_false_2.
Qed.

(** X16.  Listing a stored timer that has less than a whole second left
    sets its flag without sending an event: from then on [isTimerActive] is
    false and no run of callbacks and updates that leave its end time alone
    sends [timerExpired] for it. *)
Theorem web_listing_an_overdue_timer_silences_it
    (now : Z) (self : Web.LiveActivitiesWeb) (id : string) (timer : Web.ActiveTimer.t)
    (steps : list Web.Step) :
  Web.timers self !! id = Some timer →
  Web.ActiveTimer.endTime timer - now < 1000 →
  forallb (Web.keepsDeadline id) steps = true →
  let listed := (Web.getActiveTimers now self).1 in
  Web.isTimerActive id listed = false
  ∧ Web.expirations id (Web.run steps listed).2 = 0%nat.
Proof.
  intros Ht Hlast Hsteps%forallb_keepsDeadline listed.
  assert (Web.flagged id listed = true) as Hflag.
  { unfold listed, Web.flagged, Web.getActiveTimers. simpl. rewrite lookup_fmap, Ht. simpl.
    apply Z.leb_le. by apply secondsUntil_le_0. }
  split.
  - unfold Web.isTimerActive. unfold Web.flagged in Hflag.
    destruct (Web.timers listed !! id) as [t|]; [|done]. by rewrite Hflag.
  - by apply web_run_keeps_flag.
Qed.

(** X17.  The event of a timer is built from the options it was started
    with.  After an update that renames the timer, the stored timer has the
    new title, yet whatever its callback sends is the event with the title,
    type and custom data given to [startTimer]. *)
Theorem web_event_carries_the_options_of_startTimer
    (now0 now1 now : Z) (options : Web.StartTimerOptions.t)
    (changes : Web.UpdateTimerOptions.t) (newTitle : string)
    (self : Web.LiveActivitiesWeb) :
  Web.UpdateTimerOptions.id changes = Web.StartTimerOptions.id options →
  Web.UpdateTimerOptions.title changes = Some newTitle →
  let handle := Web.nextHandle self in
  let updated := (Web.updateTimer now1 changes (Web.startTimer now0 options self).1).1 in
  Web.ActiveTimer.title <$> Web.timers updated !! Web.StartTimerOptions.id options
    = Some newTitle
  ∧ ((Web.tick now handle updated).2 = []
     ∨ (Web.tick now handle updated).2 = [webExpiredEvent now options])
  ∧ data (webExpiredEvent now options) !! "title"
    = Some (JSString (Web.StartTimerOptions.title options)).
Proof.
  intros Hid Htitle. simpl. unfold Web.updateTimer, Web.startTimer. simpl.
  rewrite Hid, lookup_insert_eq. simpl. rewrite lookup_insert_eq. simpl.
  split; [unfold Web.applyUpdate; rewrite Htitle;
          by destruct (Web.UpdateTimerOptions.endTime changes)|].
  split; [|done]. unfold Web.tick. simpl. rewrite lookup_insert_eq.
  rewrite intervalCallback_events. destruct (callbackFires _ _ _); auto.
Qed.

(** X18.  Starting a timer under an id that is already tracked leaks the
    earlier interval: on a plugin reached from a fresh one, the earlier
    handle stays scheduled while the id now tracks a new handle, and
    neither [endTimer] for that id nor [endAllTimers] cancels it. *)
Theorem web_second_start_leaks_the_first_interval
    (actions : list Browser.Action) (now now' : Z)
    (options : Web.StartTimerOptions.t) (finish : Web.EndTimerOptions.t) (handle : Z) :
  let self := Browser.after actions Web.initial in
  let id := Web.StartTimerOptions.id options in
  Web.timerIntervals self !! id = Some handle →
  Web.EndTimerOptions.id finish = id →
  let restarted := (Web.startTimer now options self).1 in
  Web.timerIntervals restarted !! id = Some (Web.nextHandle self)
  ∧ handle ≠ Web.nextHandle self
  ∧ ∃ earlier,
      Web.scheduled restarted !! handle = Some earlier
      ∧ Web.scheduled (Web.endTimer now' finish restarted).1.1 !! handle = Some earlier
      ∧ Web.scheduled (Web.endAllTimers restarted).1 !! handle = Some earlier.
Proof.
  intros self id Hh Hfinish restarted.
  destruct (web_after_wellFormed actions Web.initial web_initial_wellFormed)
    as (Hkeys & Htracked & Hids & Hbound & Hnext). fold self in Hkeys, Htracked, Hbound, Hnext.
  destruct (Htracked id handle Hh) as (earlier & He & He').
  pose proof (Hbound _ _ He) as Hlt.
  assert (Web.scheduled restarted !! handle = Some earlier) as Hkept.
  { unfold restarted, Web.startTimer. simpl. rewrite lookup_insert_ne; [done|lia]. }
  split; [unfold restarted, Web.startTimer; simpl; by rewrite lookup_insert_eq|].
  split; [lia|]. exists earlier. split; [done|]. split.
  - unfold Web.endTimer. rewrite Hfinish.
    assert (Web.timerIntervals restarted !! id = Some (Web.nextHandle self)) as ->.
    { unfold restarted, Web.startTimer. simpl. by rewrite lookup_insert_eq. }
    destruct (decide (Web.nextHandle self = 0)); simpl; [done|].
    rewrite lookup_delete_ne; [done|lia].
  - unfold Web.endAllTimers. simpl. rewrite foldr_clearInterval_other; [done|].
    intros [[j h] [Hjh Hin]]%list_elem_of_fmap. simpl in Hjh. subst h.
    apply elem_of_map_to_list in Hin. unfold restarted, Web.startTimer in Hin.
    simpl in Hin. rewrite lookup_insert in Hin. case_decide as Hj.
    + injection Hin as Hin. lia.
    + destruct (Htracked j handle Hin) as (o & Ho & Ho'). fold id in Hj. congruence.
Qed.

(** X19.  The web [endTimer] never rejects: for any id, stored or not, it
    resolves, leaves no timer under the id, touches no other timer, and
    sends one [timerDismissed] whose type is ["generic"] and whose title is
    empty. *)
Theorem web_endTimer_never_rejects
    (now : Z) (options : Web.EndTimerOptions.t) (self : Web.LiveActivitiesWeb) :
  let id := Web.EndTimerOptions.id options in
  let r := Web.endTimer now options self in
  r.1.2 = Resolve ∅
  ∧ Web.timers r.1.1 = delete id (Web.timers self)
  ∧ (Web.timers self !! id = None → Web.timers r.1.1 = Web.timers self)
  ∧ ∃ n, r.2 = [n]
         ∧ eventName n = "timerDismissed"
         ∧ data n !! "id" = Some (JSString id)
         ∧ data n !! "type" = Some (JSString "generic")
         ∧ data n !! "title" = Some (JSString "").
Proof.
  simpl. unfold Web.endTimer.
  destruct (Web.timerIntervals self !! Web.EndTimerOptions.id options) as [h|];
    [destruct (decide (h = 0))|]; simpl;
    (split; [done|]); (split; [done|]); (split; [apply delete_id|]);
    eexists; (split; [reflexivity|]); done.
Qed.


(** X21.  The web [isTimerActive] reads the stored flag, not the clock:
    right after [startTimer] it is true whatever the end time, and right
    after a listing it is true exactly when a whole second was left at the
    time of the listing. *)
Theorem web_isTimerActive_reads_the_stored_flag
    (now : Z) (options : Web.StartTimerOptions.t) (self : Web.LiveActivitiesWeb) :
  let id := Web.StartTimerOptions.id options in
  let started := (Web.startTimer now options self).1 in
  Web.isTimerActive id started = true
  ∧ ∀ now',
      Web.isTimerActive id (Web.getActiveTimers now' started).1
      = bool_decide (1000 ≤ Web.StartTimerOptions.endTime options - now').
Proof.
  simpl. unfold Web.isTimerActive, Web.getActiveTimers, Web.startTimer. simpl.
  rewrite lookup_insert_eq. split; [done|]. intros now'.
  rewrite lookup_fmap, lookup_insert_eq. simpl.
  pose proof (secondsUntil_le_0 now' (Web.StartTimerOptions.endTime options)) as Hlast.
  destruct (Web.secondsUntil now' (Web.StartTimerOptions.endTime options) <=? 0) eqn:Hle.
  - apply Z.leb_le in Hle. rewrite bool_decide_eq_false_2; [done|]. lia.
  - apply Z.leb_gt in Hle. rewrite bool_decide_eq_true_2; [done|]. lia.
Qed.

(** The web [startTimer] always resolves with [success: true].  It
    stores the timer under its id, unflagged and stamped with the clock,
    replacing any timer stored there before, leaves every other timer as it
    is, and schedules a new callback without cancelling any. *)
Lemma web_startTimer_stores_the_timer
    (now : Z) (options : Web.StartTimerOptions.t) (self : Web.LiveActivitiesWeb) :
  let id := Web.StartTimerOptions.id options in
  let r := Web.startTimer now options self in
  (∃ payload, r.2 = Resolve payload ∧ payload !! "success" = Some (JSBool true))
  ∧ (∃ timer,
       Web.timers r.1 !! id = Some timer
       ∧ Web.ActiveTimer.title timer = Web.StartTimerOptions.title options
       ∧ Web.ActiveTimer.endTime timer = Web.StartTimerOptions.endTime options
       ∧ Web.ActiveTimer.startedAt timer = now
       ∧ Web.ActiveTimer.expired timer = false)
  ∧ (∀ j, j ≠ id → Web.timers r.1 !! j = Web.timers self !! j)
  ∧ (∀ handle earlier,
       Web.scheduled self !! handle = Some earlier → handle ≠ Web.nextHandle self →
       Web.scheduled r.1 !! handle = Some earlier).
Proof.
  simpl. unfold Web.startTimer. simpl. split; [eauto|].
  split; [rewrite lookup_insert_eq; eauto 10|].
  split; [intros j Hj; by rewrite lookup_insert_ne|].
  intros h o Ho Hh. by rewrite lookup_insert_ne.
Qed.

Lemma web_step_empty s self :
  Web.timers self = ∅ → Web.timers (Web.step s self).1 = ∅ ∧ (Web.step s self).2 = [].
Proof.
  intros Hempty. destruct s as [now handle|now options]; simpl.
  - unfold Web.tick. destruct (Web.scheduled self !! handle) as [o|]; [|done].
    unfold Web.intervalCallback. by rewrite Hempty, lookup_empty.
  - unfold Web.updateTimer. by rewrite Hempty, lookup_empty.
Qed.

(** X22.  After [endAllTimers] nothing is left to expire: no run of
    callbacks (of leaked intervals, say) and updates sends any event or
    stores any timer. *)
Theorem web_nothing_fires_after_endAllTimers
    (self : Web.LiveActivitiesWeb) (steps : list Web.Step) :
  let r := Web.run steps (Web.endAllTimers self).1 in
  r.2 = [] ∧ Web.timers r.1 = ∅.
Proof.
  cbv zeta. assert (Web.timers (Web.endAllTimers self).1 = ∅) as Hempty by done.
  revert Hempty. generalize (Web.endAllTimers self).1 as cleared.
  induction steps as [|s steps IH]; intros cleared Hempty; [done|].
  destruct (web_step_empty s cleared Hempty) as [Hstill Hnone].
  destruct (IH _ Hstill) as [Hout Htimers].
  simpl. by rewrite Hnone, Hout.
Qed.

(** ** Accent colours *)

Lemma channels_digits rgb :
  Color.channels rgb = ((rgb `div` 65536) `mod` 256, (rgb `div` 256) `mod` 256, rgb `mod` 256).
Proof.
  unfold Color.channels. change 255 with (Z.ones 8).
  rewrite (Z.land_ones (Z.shiftr rgb 16) 8), (Z.land_ones (Z.shiftr rgb 8) 8),
    (Z.land_ones rgb 8) by lia.
  rewrite (Z.shiftr_div_pow2 rgb 16), (Z.shiftr_div_pow2 rgb 8) by lia.
  reflexivity.
Qed.

(** X23.  The three channels taken from a scanned number are bytes; for a
    number below 2^24 they are its three base-256 digits; and bits above the
    24th (a leading alpha byte, say) do not change them. *)
Theorem channels_are_the_low_three_bytes (rgb : Z) :
  0 ≤ rgb →
  let '(r, g, b) := Color.channels rgb in
  (0 ≤ r ≤ 255 ∧ 0 ≤ g ≤ 255 ∧ 0 ≤ b ≤ 255)
  ∧ (rgb < 2 ^ 24 → rgb = r * 65536 + g * 256 + b)
  ∧ ∀ high, 0 ≤ high → Color.channels (rgb + high * 2 ^ 24) = (r, g, b).
Proof.
  intros Hrgb. rewrite channels_digits.
  change (2 ^ 24) with 16777216.
  split; [|split].
  - pose proof (Z.mod_pos_bound (rgb `div` 65536) 256).
    pose proof (Z.mod_pos_bound (rgb `div` 256) 256).
    pose proof (Z.mod_pos_bound rgb 256). lia.
  - intros Hsmall.
    pose proof (Z.div_mod rgb 256). pose proof (Z.mod_pos_bound rgb 256).
    pose proof (Z.div_mod (rgb `div` 256) 256).
    pose proof (Z.mod_pos_bound (rgb `div` 256) 256).
    assert (rgb `div` 65536 = (rgb `div` 256) `div` 256) as ->
      by (rewrite Z.div_div by lia; done).
    assert (0 ≤ (rgb `div` 256) `div` 256 < 256).
    { split; [apply Z.div_pos; [apply Z.div_pos|]; lia|].
      apply Z.div_lt_upper_bound; [lia|]. apply Z.div_lt_upper_bound; lia. }
    rewrite (Z.mod_small ((rgb `div` 256) `div` 256) 256) by lia. lia.
  - intros high Hhigh. rewrite channels_digits.
    replace ((rgb + high * 16777216) `div` 65536) with (rgb `div` 65536 + high * 256)
      by (replace (high * 16777216) with ((high * 256) * 65536) by lia;
          rewrite Z.div_add by lia; done).
    replace ((rgb + high * 16777216) `div` 256) with (rgb `div` 256 + (high * 256) * 256)
      by (replace (high * 16777216) with ((high * 65536) * 256) by lia;
          rewrite Z.div_add by lia; lia).
    replace (rgb + high * 16777216) with (rgb + (high * 65536) * 256) by lia.
    by rewrite !Z_mod_plus_full.
Qed.


(** [isSupported] reports a Dynamic Island only together with support, and
    neither on a platform without the capability. *)
Lemma isSupported_dynamicIsland available areActivitiesEnabled isPhone :
  ∃ supported dynamicIsland,
    Native.isSupported available areActivitiesEnabled isPhone
    = Resolve (list_to_map
        [("supported", JSBool supported); ("dynamicIsland", JSBool dynamicIsland)])
    ∧ (dynamicIsland = true → supported = true)
    ∧ (available = false → supported = false).
Proof.
  unfold Native.isSupported.
  destruct available, areActivitiesEnabled, isPhone; simpl; eauto 10.
Qed.

(** ** The added theorems at the scenarios *)

Lemma expired_timer_reads_as_inactive_witness :
  IOS.timerMetadata Scenario.started !! "t1" = Some Scene.metadata
  ∧ due 5000 Scene.metadata = true
  ∧ IOS.activeTimers Scenario.started !! "t1" = Some Scene.activity
  ∧ getString Scenario.finish "id" = Some "t1"
  ∧ 5000 ≤ 6000
  ∧ let self' := (IOS.checkForExpiredTimers true 5000 Scenario.started).1 in
    IOS.isTimerActive true 6000 Scenario.finish self'
      = Resolve {["active" := JSBool false]}
    ∧ ∃ activity',
        IOS.activeTimers self' !! "t1" = Some activity'
        ∧ IOS.describeTimer 6000 "t1" activity' !! "expired" = Some (JSBool true)
        ∧ IOS.describeTimer 6000 "t1" activity' !! "remainingSeconds" = Some (JSNumber 0)
        ∧ IOS.describeTimer 6000 "t1" activity' !! "title"
          = Some (JSString
                    (IOS.ContentState.title (IOS.state (IOS.content Scene.activity))
                     +:+ " - Complete")).
Proof.
  split; [reflexivity|]. split; [reflexivity|]. split; [reflexivity|].
  split; [reflexivity|]. split; [lia|].
  apply (expired_timer_reads_as_inactive 5000 6000 Scenario.started Scenario.finish
           "t1" Scene.metadata Scene.activity); (reflexivity || lia).
Defined.

Lemma startTimer_registers_witness :
  getString Scenario.start "id" = Some "t1"
  ∧ getString Scenario.start "title" = Some "Fentanyl CRI"
  ∧ getDouble Scenario.start "endTime" = Some 5000
  ∧ let self' := (IOS.startTimer true (IOS.granted "A1") Scenario.start IOS.initial).1.1 in
    (∀ j, j ≠ "t1" →
       IOS.activeTimers self' !! j = IOS.activeTimers IOS.initial !! j
       ∧ IOS.timerMetadata self' !! j = IOS.timerMetadata IOS.initial !! j)
    ∧ (IOS.TimerMetadata.endTime <$> IOS.timerMetadata self' !! "t1" = Some 5000
       ∧ IOS.flagged "t1" self' = false)
    ∧ (∃ activity,
         IOS.activeTimers self' !! "t1" = Some activity
         ∧ IOS.id (IOS.attributes activity) = "t1"
         ∧ IOS.activityToken activity = "A1"
         ∧ IOS.ContentState.title (IOS.state (IOS.content activity)) = "Fentanyl CRI"
         ∧ IOS.ContentState.endTime (IOS.state (IOS.content activity)) = 5000)
      ∧ IOS.expirationCheckTimer self' = true.
Proof.
  split; [reflexivity|]. split; [reflexivity|]. split; [reflexivity|].
  apply (startTimer_registers_only_its_id (IOS.granted "A1") Scenario.start IOS.initial
           "t1" "Fentanyl CRI" 5000); reflexivity.
Defined.

Lemma failed_start_still_expires_witness :
  getString Scenario.start "id" = Some "t1"
  ∧ getString Scenario.start "title" = Some "Fentanyl CRI"
  ∧ getDouble Scenario.start "endTime" = Some 5000
  ∧ IOS.activeTimers IOS.initial !! "t1" = None
  ∧ let r := IOS.startTimer true (IOS.refused "denied") Scenario.start IOS.initial in
    (∃ payload, r.1.2 = Resolve payload ∧ payload !! "success" = Some (JSBool false))
    ∧ ∀ now, 5000 ≤ now →
        IOS.expirations "t1" (IOS.checkForExpiredTimers true now r.1.1).2 = 1%nat
        ∧ ∀ now' entry,
            entry ∈ IOS.getActiveTimers true now' r.1.1
            ∨ entry
              ∈ IOS.getActiveTimers true now' (IOS.checkForExpiredTimers true now r.1.1).1 →
            entry !! "id" ≠ Some (JSString "t1").
Proof.
  split; [reflexivity|]. split; [reflexivity|]. split; [reflexivity|].
  split; [reflexivity|].
  apply (failed_start_still_expires "denied" Scenario.start IOS.initial
           "t1" "Fentanyl CRI" 5000); reflexivity.
Defined.

Lemma isTimerActive_agrees_witness :
  getString Scenario.finish "id" = Some "t1"
  ∧ match IOS.activeTimers Scenario.started !! "t1" with
    | Some activity =>
      ∃ active,
        IOS.isTimerActive true 1000 Scenario.finish Scenario.started
          = Resolve {["active" := JSBool active]}
        ∧ (active = true
           ↔ 1000 < IOS.ContentState.endTime (IOS.state (IOS.content activity)))
        ∧ IOS.describeTimer 1000 "t1" activity !! "expired" = Some (JSBool (negb active))
    | None =>
      IOS.isTimerActive true 1000 Scenario.finish Scenario.started
      = Resolve {["active" := JSBool false]}
    end.
Proof.
  split; [reflexivity|].
  apply (isTimerActive_agrees_with_listing 1000 Scenario.finish Scenario.started "t1").
  reflexivity.
Defined.

Lemma endTimer_removes_witness :
  getString Scenario.finish "id" = Some "t1"
  ∧ IOS.activeTimers Scenario.started !! "t1" = Some Scene.activity
  ∧ let r := IOS.endTimer true 1000 Scenario.finish Scenario.started in
    r.1.2 = Resolve ∅
    ∧ IOS.activeTimers r.1.1 = delete "t1" (IOS.activeTimers Scenario.started)
    ∧ IOS.timerMetadata r.1.1 = delete "t1" (IOS.timerMetadata Scenario.started)
    ∧ IOS.expirationCheckTimer r.1.1
      = (if decide (delete "t1" (IOS.activeTimers Scenario.started) = ∅) then false
         else IOS.expirationCheckTimer Scenario.started)
    ∧ IOS.notifications r.2
      = [mkNotification "timerDismissed" (list_to_map
           [("id", JSString "t1"); ("eventType", JSString "dismissed");
            ("timestamp", JSNumber 1000)])]
    ∧ IOS.endTimer true 2000 Scenario.finish r.1.1
      = (r.1.1, Reject ("Timer not found: " +:+ "t1"), []).
Proof.
  split; [reflexivity|]. split; [reflexivity|].
  apply (endTimer_removes_only_its_id 1000 2000 Scenario.finish Scenario.started
           "t1" Scene.activity); reflexivity.
Defined.

Lemma endTimer_final_snapshot_witness :
  getString Scenario.finish "id" = Some "t1"
  ∧ IOS.activeTimers Scenario.started !! "t1" = Some Scene.activity
  ∧ let current := IOS.state (IOS.content Scene.activity) in
    ∃ final policy rest,
      (IOS.endTimer true 1000 Scenario.finish Scenario.started).2
      = IOS.activityEnd "t1" (Some (IOS.mkContent final None)) policy :: rest
      ∧ IOS.ContentState.subtitle final = IOS.ContentState.subtitle current
      ∧ IOS.ContentState.customData final = IOS.ContentState.customData current
      ∧ match getString Scenario.finish "finalMessage" with
        | Some message =>
          IOS.ContentState.title final = message
          ∧ IOS.ContentState.detail final = ""
          ∧ IOS.ContentState.endTime final = 1000
        | None => final = current
        end
      ∧ match getString Scenario.finish "dismissalPolicy" with
        | Some policyName =>
          if decide (policyName = "immediate") then policy = IOS.immediate
          else if decide (policyName = "after") then
            policy
            = IOS.after
                (1000 + default 0 (getDouble Scenario.finish "dismissAfterSeconds") * 1000)
          else policy = IOS.default_policy
        | None => policy = IOS.default_policy
        end.
Proof.
  split; [reflexivity|]. split; [reflexivity|].
  apply (endTimer_final_snapshot 1000 Scenario.finish Scenario.started
           "t1" Scene.activity); reflexivity.
Defined.

Lemma web_callback_fires_witness :
  Web.scheduled Scenario.webStarted !! 1 = Some Scenario.webStart
  ∧ Web.timers Scenario.webStarted !! Web.StartTimerOptions.id Scenario.webStart
    = Some Scene.timer
  ∧ Web.ActiveTimer.expired Scene.timer = false
  ∧ (Web.tick 500 1 Scenario.webStarted).2
    = (if decide (Web.ActiveTimer.endTime Scene.timer - 500 < 1000)
       then [webExpiredEvent 500 Scenario.webStart] else [])
  ∧ Web.flagged (Web.StartTimerOptions.id Scenario.webStart)
      (Web.tick 500 1 Scenario.webStarted).1
    = bool_decide (Web.ActiveTimer.endTime Scene.timer - 500 < 1000).
Proof.
  split; [reflexivity|]. split; [reflexivity|]. split; [reflexivity|].
  apply (web_callback_fires_in_the_last_second 500 1 Scenario.webStarted
           Scenario.webStart Scene.timer); reflexivity.
Defined.

Lemma web_listing_silences_witness :
  Web.timers Scenario.webStarted !! "t1" = Some Scene.timer
  ∧ Web.ActiveTimer.endTime Scene.timer - 500 < 1000
  ∧ forallb (Web.keepsDeadline "t1") Scenario.webSteps = true
  ∧ let listed := (Web.getActiveTimers 500 Scenario.webStarted).1 in
    Web.isTimerActive "t1" listed = false
    ∧ Web.expirations "t1" (Web.run Scenario.webSteps listed).2 = 0%nat.
Proof.
  split; [reflexivity|]. split; [reflexivity|]. split; [reflexivity|].
  apply (web_listing_an_overdue_timer_silences_it 500 Scenario.webStarted "t1"
           Scene.timer Scenario.webSteps); reflexivity.
Defined.

Lemma web_event_carries_witness :
  Web.UpdateTimerOptions.id Scenario.webRename = Web.StartTimerOptions.id Scenario.webStart
  ∧ Web.UpdateTimerOptions.title Scenario.webRename = Some "Fentanyl CRI, second bag"
  ∧ let handle := Web.nextHandle Web.initial in
    let updated :=
      (Web.updateTimer 100 Scenario.webRename
         (Web.startTimer 0 Scenario.webStart Web.initial).1).1 in
    Web.ActiveTimer.title
      <$> Web.timers updated !! Web.StartTimerOptions.id Scenario.webStart
      = Some "Fentanyl CRI, second bag"
    ∧ ((Web.tick 1000 handle updated).2 = []
       ∨ (Web.tick 1000 handle updated).2 = [webExpiredEvent 1000 Scenario.webStart])
    ∧ data (webExpiredEvent 1000 Scenario.webStart) !! "title"
      = Some (JSString (Web.StartTimerOptions.title Scenario.webStart)).
Proof.
  split; [reflexivity|]. split; [reflexivity|].
  apply (web_event_carries_the_options_of_startTimer 0 100 1000 Scenario.webStart
           Scenario.webRename "Fentanyl CRI, second bag" Web.initial); reflexivity.
Defined.

Lemma web_second_start_leaks_witness :
  let self := Browser.after Scene.webActions Web.initial in
  let id := Web.StartTimerOptions.id Scenario.webStart in
  Web.timerIntervals self !! id = Some 1
  ∧ Web.EndTimerOptions.id Scene.webFinish = id
  ∧ let restarted := (Web.startTimer 100 Scenario.webStart self).1 in
    Web.timerIntervals restarted !! id = Some (Web.nextHandle self)
    ∧ 1 ≠ Web.nextHandle self
    ∧ ∃ earlier,
        Web.scheduled restarted !! 1 = Some earlier
        ∧ Web.scheduled (Web.endTimer 200 Scene.webFinish restarted).1.1 !! 1
          = Some earlier
        ∧ Web.scheduled (Web.endAllTimers restarted).1 !! 1 = Some earlier.
Proof.
  split; [reflexivity|]. split; [reflexivity|].
  apply (web_second_start_leaks_the_first_interval Scene.webActions 100 200
           Scenario.webStart Scene.webFinish 1); reflexivity.
Defined.

Lemma channels_witness :
  0 ≤ 31487
  ∧ let '(r, g, b) := Color.channels 31487 in
    (0 ≤ r ≤ 255 ∧ 0 ≤ g ≤ 255 ∧ 0 ≤ b ≤ 255)
    ∧ (31487 < 2 ^ 24 → 31487 = r * 65536 + g * 256 + b)
    ∧ ∀ high, 0 ≤ high → Color.channels (31487 + high * 2 ^ 24) = (r, g, b).
Proof.
  split; [lia|]. apply (channels_are_the_low_three_bytes 31487). lia.
Defined.
